(** * Verification of [vks::Screenshot] and [vks::MemoryTracker]

    A shallow embedding of [base/VulkanScreenshot.hpp]: the frame capture
    routine [Screenshot::save] and the allocation accounting singleton
    [MemoryTracker], followed by the properties established about them. *)

From Stdlib Require Import ZArith NArith Lia List Ascii String.
From Stdlib Require Import DecimalString DecimalN DecimalPos.
From Stdlib.Strings Require Import Byte.
From stdpp Require Import base numbers option list gmap strings.

Local Open Scope Z_scope.

(** ** Machine integers

    [VkDeviceSize] is [uint64_t]; arithmetic on it wraps modulo [2^64].
    [int32_t] values obtained by [static_cast] wrap into the signed range. *)

Definition wrap64 (z : Z) : Z := z mod 2 ^ 64.

Definition to_int32 (z : Z) : Z := (z + 2 ^ 31) mod 2 ^ 32 - 2 ^ 31.

(** ** MemoryTracker *)

Module Tracker.

(** [struct AllocationInfo].  The unsigned members ([VkDeviceSize],
    [uint32_t]) and the handles are integers of [Z]; the arithmetic that
    the code does on [VkDeviceSize] values is wrapped where it is done. *)
Record AllocationInfo := mkAllocationInfo {
  size : Z;
  memoryTypeIndex : Z;
  tag : string
}.

(** The data members of [class MemoryTracker].  Handles ([VkDeviceMemory])
    are the keys of the [unordered_map]; the [std::mutex] is taken and
    released inside each mutator and carries no observable state between
    two calls of a sequential client, so it is not a field. *)
Record MemoryTracker := mkMemoryTracker {
  allocations : gmap Z AllocationInfo;
  totalAllocated : Z;
  peakAllocated : Z;
  taggedAllocations : gmap string Z
}.

(** The default-constructed singleton. *)
Definition instance0 : MemoryTracker :=
  {| allocations := ∅; totalAllocated := 0; peakAllocated := 0;
     taggedAllocations := ∅ |}.

(** [std::string::empty]. *)
Definition str_empty (s : string) : bool :=
  match s with EmptyString => true | String _ _ => false end.

(** [m[k]] of [unordered_map<string, VkDeviceSize>] used as an rvalue that
    is then assigned in place: a missing key is value-initialised to 0. *)
Definition subscript (m : gmap string Z) (k : string) : Z := default 0 (m !! k).

Definition recordAllocation (memory sz memTypeIndex : Z) (tg : string)
    (t : MemoryTracker) : MemoryTracker :=
  let info := mkAllocationInfo sz memTypeIndex tg in
  let allocations' := <[memory := info]> (allocations t) in
  let total' := wrap64 (totalAllocated t + sz) in
  let peak' := if peakAllocated t <? total' then total' else peakAllocated t in
  let tagged' :=
    if negb (str_empty tg)
    then <[tg := wrap64 (subscript (taggedAllocations t) tg + sz)]> (taggedAllocations t)
    else taggedAllocations t in
  mkMemoryTracker allocations' total' peak' tagged'.

Definition recordFree (memory : Z) (t : MemoryTracker) : MemoryTracker :=
  match allocations t !! memory with
  | Some it =>
      let total' := wrap64 (totalAllocated t - size it) in
      let tagged' :=
        if negb (str_empty (tag it))
        then <[tag it := wrap64 (subscript (taggedAllocations t) (tag it) - size it)]>
               (taggedAllocations t)
        else taggedAllocations t in
      mkMemoryTracker (delete memory (allocations t)) total' (peakAllocated t) tagged'
  | None => t
  end.

Definition getTotalAllocated (t : MemoryTracker) : Z := totalAllocated t.

Definition getPeakAllocated (t : MemoryTracker) : Z := peakAllocated t.

Definition getAllocationByTag (tg : string) (t : MemoryTracker) : Z :=
  match taggedAllocations t !! tg with
  | Some v => v
  | None => 0
  end.

Definition getAllocationCount (t : MemoryTracker) : Z :=
  Z.of_nat (base.size (allocations t)).

Definition reset (t : MemoryTracker) : MemoryTracker :=
  mkMemoryTracker ∅ 0 0 ∅.

(** *** Client traces

    A sequence of mutator calls, and the tracker state it leads to. *)
Inductive Op :=
| CallRecordAllocation (memory sz memTypeIndex : Z) (tg : string)
| CallRecordFree (memory : Z)
| CallReset.

Definition step (t : MemoryTracker) (o : Op) : MemoryTracker :=
  match o with
  | CallRecordAllocation memory sz idx tg => recordAllocation memory sz idx tg t
  | CallRecordFree memory => recordFree memory t
  | CallReset => reset t
  end.

Definition run (ops : list Op) : MemoryTracker := fold_left step ops instance0.

(** *** Reference bookkeeping

    What "the live allocations" are, told from the calls alone and without
    looking at the tracker: an allocation is live from the
    [recordAllocation] that records it until the [recordFree] of its handle
    or the next [reset]. *)
Abbreviation Live := (list (Z * AllocationInfo)).

Definition live_step (l : Live) (o : Op) : Live :=
  match o with
  | CallRecordAllocation memory sz idx tg => (memory, mkAllocationInfo sz idx tg) :: l
  | CallRecordFree memory => filter (λ e, e.1 ≠ memory) l
  | CallReset => []
  end.

Definition live (ops : list Op) : Live := fold_left live_step ops [].

Definition is_live (memory : Z) (l : Live) : bool :=
  bool_decide (memory ∈ l.*1).

(** No [recordAllocation] is issued for a handle that is live at that time. *)
Fixpoint fresh_allocs_from (l : Live) (ops : list Op) : bool :=
  match ops with
  | [] => true
  | o :: ops' =>
      match o with
      | CallRecordAllocation memory _ _ _ => negb (is_live memory l)
      | _ => true
      end && fresh_allocs_from (live_step l o) ops'
  end.

Definition fresh_allocs (ops : list Op) : bool := fresh_allocs_from [] ops.

Definition sum_sizes (l : Live) : Z := foldr (λ e acc, size e.2 + acc) 0 l.

Definition with_tag (tg : string) (l : Live) : Live :=
  filter (λ e, tag e.2 = tg) l.

End Tracker.

(** ** The Vulkan API as far as [Screenshot::save] uses it

    Enumerants and flag bits carry the values of [vulkan_core.h]. *)

Module Vk.

Local Open Scope N_scope.

Definition VkResult := Z.
Definition VK_SUCCESS : VkResult := 0%Z.

Definition VkFormat := N.
Definition VK_FORMAT_R8G8B8A8_UNORM : VkFormat := 37.
Definition VK_FORMAT_B8G8R8A8_UNORM : VkFormat := 44.
Definition VK_FORMAT_B8G8R8A8_SNORM : VkFormat := 45.
Definition VK_FORMAT_B8G8R8A8_SRGB : VkFormat := 50.

Definition VK_FORMAT_FEATURE_BLIT_SRC_BIT : N := 0x400.
Definition VK_FORMAT_FEATURE_BLIT_DST_BIT : N := 0x800.

Definition VK_ACCESS_TRANSFER_READ_BIT : N := 0x800.
Definition VK_ACCESS_TRANSFER_WRITE_BIT : N := 0x1000.
Definition VK_ACCESS_MEMORY_READ_BIT : N := 0x8000.

Definition VK_PIPELINE_STAGE_TRANSFER_BIT : N := 0x1000.
Definition VK_IMAGE_ASPECT_COLOR_BIT : N := 0x1.
Definition VK_MEMORY_PROPERTY_HOST_VISIBLE_BIT : N := 0x2.
Definition VK_MEMORY_PROPERTY_HOST_COHERENT_BIT : N := 0x4.
Definition VK_IMAGE_USAGE_TRANSFER_DST_BIT : N := 0x2.
Definition VK_SAMPLE_COUNT_1_BIT : N := 0x1.
Definition VK_STRUCTURE_TYPE_IMAGE_CREATE_INFO : N := 14.
Definition VK_STRUCTURE_TYPE_MEMORY_ALLOCATE_INFO : N := 5.
Definition VK_WHOLE_SIZE : N := 2 ^ 64 - 1.

Inductive VkImageType := VK_IMAGE_TYPE_1D | VK_IMAGE_TYPE_2D | VK_IMAGE_TYPE_3D.
Inductive VkImageTiling := VK_IMAGE_TILING_OPTIMAL | VK_IMAGE_TILING_LINEAR.
Inductive VkFilter := VK_FILTER_NEAREST | VK_FILTER_LINEAR.
Inductive VkCommandBufferLevel :=
  VK_COMMAND_BUFFER_LEVEL_PRIMARY | VK_COMMAND_BUFFER_LEVEL_SECONDARY.

Inductive VkImageLayout :=
| VK_IMAGE_LAYOUT_UNDEFINED
| VK_IMAGE_LAYOUT_GENERAL
| VK_IMAGE_LAYOUT_COLOR_ATTACHMENT_OPTIMAL
| VK_IMAGE_LAYOUT_TRANSFER_SRC_OPTIMAL
| VK_IMAGE_LAYOUT_TRANSFER_DST_OPTIMAL
| VK_IMAGE_LAYOUT_PRESENT_SRC_KHR.

#[global] Instance VkImageLayout_eq_dec : EqDecision VkImageLayout.
Proof. solve_decision. Defined.

Record VkFormatProperties := mkFormatProperties {
  linearTilingFeatures : N;
  optimalTilingFeatures : N;
  bufferFeatures : N
}.

Record VkExtent3D := mkExtent3D { width : N; height : N; depth : N }.
Record VkOffset3D := mkOffset3D { x : Z; y : Z; z : Z }.

Record VkImageCreateInfo := mkImageCreateInfo {
  ici_sType : N;
  imageType : VkImageType;
  format : VkFormat;
  extent : VkExtent3D;
  mipLevels : N;
  arrayLayers : N;
  samples : N;
  tiling : VkImageTiling;
  usage : N;
  initialLayout : VkImageLayout
}.

Record VkMemoryRequirements := mkMemoryRequirements {
  mr_size : N;
  alignment : N;
  memoryTypeBits : N
}.

Record VkMemoryAllocateInfo := mkMemoryAllocateInfo {
  mai_sType : N;
  allocationSize : N;
  memoryTypeIndex : N
}.

Record VkImageSubresourceRange := mkSubresourceRange {
  range_aspectMask : N;
  baseMipLevel : N;
  levelCount : N;
  range_baseArrayLayer : N;
  range_layerCount : N
}.

Record VkImageSubresourceLayers := mkSubresourceLayers {
  aspectMask : N;
  mipLevel : N;
  baseArrayLayer : N;
  layerCount : N
}.

Record VkImageSubresource := mkSubresource {
  sub_aspectMask : N;
  sub_mipLevel : N;
  arrayLayer : N
}.

Record VkSubresourceLayout := mkSubresourceLayout {
  offset : N;
  sl_size : N;
  rowPitch : N;
  arrayPitch : N;
  depthPitch : N
}.

(** [VkImageBlit]: [srcOffsets] and [dstOffsets] are arrays of two corners. *)
Record VkImageBlit := mkImageBlit {
  blit_srcSubresource : VkImageSubresourceLayers;
  srcOffsets0 : VkOffset3D;
  srcOffsets1 : VkOffset3D;
  blit_dstSubresource : VkImageSubresourceLayers;
  dstOffsets0 : VkOffset3D;
  dstOffsets1 : VkOffset3D
}.

Record VkImageCopy := mkImageCopy {
  srcSubresource : VkImageSubresourceLayers;
  srcOffset : VkOffset3D;
  dstSubresource : VkImageSubresourceLayers;
  dstOffset : VkOffset3D;
  copy_extent : VkExtent3D
}.

(** Value initialisation ([T v{}] and [T v = {}]). *)
Definition zeroOffset3D : VkOffset3D := mkOffset3D 0 0 0.
Definition zeroExtent3D : VkExtent3D := mkExtent3D 0 0 0.
Definition zeroSubresourceLayers : VkImageSubresourceLayers :=
  mkSubresourceLayers 0 0 0 0.

(** What gets recorded into a command buffer. *)
Inductive Command :=
| CmdPipelineBarrier (image : N) (srcAccessMask dstAccessMask : N)
    (oldLayout newLayout : VkImageLayout) (srcStageMask dstStageMask : N)
    (subresourceRange : VkImageSubresourceRange)
| CmdBlitImage (srcImage : N) (srcImageLayout : VkImageLayout)
    (dstImage : N) (dstImageLayout : VkImageLayout)
    (regions : list VkImageBlit) (filter : VkFilter)
| CmdCopyImage (srcImage : N) (srcImageLayout : VkImageLayout)
    (dstImage : N) (dstImageLayout : VkImageLayout)
    (regions : list VkImageCopy).

Definition VkCommandBuffer := list Command.

End Vk.

(** ** The device, the driver and the file system around one capture *)

Module Device.

Import Vk.
Local Open Scope N_scope.

(** Layout of a live image and the access scope its last barrier made the
    image available to. *)
Record ImageState := mkImageState {
  layout : VkImageLayout;
  access : N
}.

(** A live [VkDeviceMemory] allocation. *)
Record MemoryState := mkMemoryState {
  bytes : N;
  mapped : bool
}.

(** Everything a capture can change: the live images and allocations of the
    logical device, the files on disk, and the command buffers that have
    been submitted to the device, oldest first. *)
Record World := mkWorld {
  images : gmap N ImageState;
  memory : gmap N MemoryState;
  files : gmap string (list byte);
  submitted : list VkCommandBuffer
}.

Definition set_images (f : gmap N ImageState → gmap N ImageState) (w : World) : World :=
  mkWorld (f (images w)) (memory w) (files w) (submitted w).
Definition set_memory (f : gmap N MemoryState → gmap N MemoryState) (w : World) : World :=
  mkWorld (images w) (f (memory w)) (files w) (submitted w).
Definition set_files (f : gmap string (list byte) → gmap string (list byte)) (w : World) : World :=
  mkWorld (images w) (memory w) (f (files w)) (submitted w).
Definition set_submitted (f : list VkCommandBuffer → list VkCommandBuffer) (w : World) : World :=
  mkWorld (images w) (memory w) (files w) (f (submitted w)).

(** How a call can end: it returns, the process is stopped by a failed
    [VK_CHECK_RESULT], or the C++ program has no defined behaviour (invalid
    API usage, a read through an unset or out-of-range pointer). *)
Inductive Outcome (A : Type) :=
| Ok (a : A) (w : World)
| Fatal
| Undefined.
Arguments Ok {A} a w.
Arguments Fatal {A}.
Arguments Undefined {A}.

Definition M (A : Type) : Type := World → Outcome A.

#[global] Instance M_ret : MRet M := λ A a w, Ok a w.
#[global] Instance M_bind : MBind M := λ A B k c w,
  match c w with
  | Ok a w' => k a w'
  | Fatal => Fatal
  | Undefined => Undefined
  end.

(** Undefined behaviour of a host-side computation. *)
Definition or_undefined {A} (o : option A) : M A := λ w,
  match o with Some a => Ok a w | None => Undefined end.

(** What the driver and the operating system answer during one capture.
    [stagingBytes] is the host view of the staging allocation once the
    submitted transfer has completed. *)
Record Env := mkEnv {
  formatProperties : VkFormat → VkFormatProperties;
  createImageResult : VkImageCreateInfo → VkResult;
  imageMemoryRequirements : VkMemoryRequirements;
  memoryType : N → N → N;
  allocateMemoryResult : VkMemoryAllocateInfo → VkResult;
  bindImageMemoryResult : VkResult;
  submitResult : VkResult;
  imageSubresourceLayout : VkSubresourceLayout;
  mapMemoryResult : VkResult;
  stagingBytes : list byte;
  fileOpens : string → bool
}.

(** A host pointer into a mapped range. *)
Record Pointer := mkPointer {
  region : list byte;
  addr : N
}.

Definition ptr_add (p : Pointer) (n : N) : Pointer := mkPointer (region p) (addr p + n).

(** Reading [n] bytes through a pointer; outside the mapped range the read
    is undefined. *)
Definition read (p : Pointer) (n : nat) : option (list byte) :=
  if decide (N.to_nat (addr p) + n ≤ length (region p))%nat
  then Some (take n (drop (N.to_nat (addr p)) (region p)))
  else None.

(** *** Vulkan entry points *)

Definition vkGetPhysicalDeviceFormatProperties (env : Env) (fmt : VkFormat)
  : VkFormatProperties := formatProperties env fmt.

Definition vkCreateImage (env : Env) (ci : VkImageCreateInfo) : M (VkResult * N) := λ w,
  let res := createImageResult env ci in
  if decide (res = VK_SUCCESS) then
    let h := fresh (dom (images w)) in
    Ok (res, h) (set_images (insert h (mkImageState (initialLayout ci) 0)) w)
  else Ok (res, 0) w.

Definition vkGetImageMemoryRequirements (env : Env) (image : N)
  : VkMemoryRequirements := imageMemoryRequirements env.

Definition vkAllocateMemory (env : Env) (ai : VkMemoryAllocateInfo) : M (VkResult * N) := λ w,
  let res := allocateMemoryResult env ai in
  if decide (res = VK_SUCCESS) then
    let h := fresh (dom (memory w)) in
    Ok (res, h) (set_memory (insert h (mkMemoryState (allocationSize ai) false)) w)
  else Ok (res, 0) w.

Definition vkBindImageMemory (env : Env) (image mem memoryOffset : N) : M VkResult := λ w,
  match images w !! image, memory w !! mem with
  | Some _, Some _ => Ok (bindImageMemoryResult env) w
  | _, _ => Undefined
  end.

Definition vkGetImageSubresourceLayout (env : Env) (image : N)
    (sub : VkImageSubresource) : VkSubresourceLayout := imageSubresourceLayout env.

(** On success the pointer variable receives the address of the mapping; on
    failure it is left as it was. *)
Definition vkMapMemory (env : Env) (mem memoryOffset sz flags : N)
  : M (VkResult * option Pointer) := λ w,
  match memory w !! mem with
  | Some ms =>
      let res := mapMemoryResult env in
      if decide (res = VK_SUCCESS) then
        Ok (res, Some (mkPointer (stagingBytes env) memoryOffset))
           (set_memory (insert mem (mkMemoryState (bytes ms) true)) w)
      else Ok (res, None) w
  | None => Undefined
  end.

Definition vkUnmapMemory (mem : N) : M unit := λ w,
  match memory w !! mem with
  | Some ms =>
      if mapped ms
      then Ok tt (set_memory (insert mem (mkMemoryState (bytes ms) false)) w)
      else Undefined
  | None => Undefined
  end.

Definition vkFreeMemory (mem : N) : M unit := λ w,
  match memory w !! mem with
  | Some _ => Ok tt (set_memory (delete mem) w)
  | None => Undefined
  end.

Definition vkDestroyImage (image : N) : M unit := λ w,
  match images w !! image with
  | Some _ => Ok tt (set_images (delete image) w)
  | None => Undefined
  end.

Definition vkCmdBlitImage (cmd : VkCommandBuffer) (srcImage : N) (srcLayout : VkImageLayout)
    (dstImage : N) (dstLayout : VkImageLayout) (regions : list VkImageBlit)
    (filter : VkFilter) : VkCommandBuffer :=
  cmd ++ [CmdBlitImage srcImage srcLayout dstImage dstLayout regions filter].

Definition vkCmdCopyImage (cmd : VkCommandBuffer) (srcImage : N) (srcLayout : VkImageLayout)
    (dstImage : N) (dstLayout : VkImageLayout) (regions : list VkImageCopy)
  : VkCommandBuffer :=
  cmd ++ [CmdCopyImage srcImage srcLayout dstImage dstLayout regions].

(** *** Execution of a submitted command buffer

    A barrier moves its image from [oldLayout] (which has to be the layout
    the image is in, or [UNDEFINED]) to [newLayout]; a transfer needs both
    images in the layouts the command names. *)
Definition exec_barrier (image dstAccessMask : N) (oldLayout newLayout : VkImageLayout)
    (imgs : gmap N ImageState) : option (gmap N ImageState) :=
  match imgs !! image with
  | Some st =>
      if decide (oldLayout = VK_IMAGE_LAYOUT_UNDEFINED ∨ oldLayout = layout st)
      then Some (<[image := mkImageState newLayout dstAccessMask]> imgs)
      else None
  | None => None
  end.

Definition in_layout (imgs : gmap N ImageState) (image : N) (l : VkImageLayout) : bool :=
  match imgs !! image with
  | Some st => bool_decide (layout st = l)
  | None => false
  end.

Definition exec_command (c : Command) (imgs : gmap N ImageState)
  : option (gmap N ImageState) :=
  match c with
  | CmdPipelineBarrier image _ dstAccessMask oldLayout newLayout _ _ _ =>
      exec_barrier image dstAccessMask oldLayout newLayout imgs
  | CmdBlitImage src sl dst dl _ _ | CmdCopyImage src sl dst dl _ =>
      if in_layout imgs src sl && in_layout imgs dst dl then Some imgs else None
  end.

Fixpoint exec_commands (cs : list Command) (imgs : gmap N ImageState)
  : option (gmap N ImageState) :=
  match cs with
  | [] => Some imgs
  | c :: cs' =>
      match exec_command c imgs with
      | Some imgs' => exec_commands cs' imgs'
      | None => None
      end
  end.

End Device.

(** ** [std::ofstream] *)

Module Stream.

Import Device.

(** The stream object: the path it was opened on, whether opening
    succeeded, and the bytes put into it so far.  Putting bytes into an
    open stream is taken to succeed; [save] never looks at the state of
    the stream after opening it. *)
Record ofstream := mkOfstream {
  path : string;
  is_open : bool;
  written : list byte
}.

(** [std::ofstream file(filename, std::ios::out | std::ios::binary)]: when
    the file can be opened it is created or truncated; otherwise the disk
    is left alone and the stream is not open. *)
Definition open (env : Env) (filename : string) : M ofstream := λ w,
  if fileOpens env filename
  then Ok (mkOfstream filename true []) (set_files (insert filename []) w)
  else Ok (mkOfstream filename false []) w.

Definition put (file : ofstream) (bs : list byte) : ofstream :=
  mkOfstream (path file) (is_open file) (written file ++ bs).

(** The one-character string [\n]. *)
Definition LF : string := String "010"%char EmptyString.

(** [file << "literal"]. *)
Definition put_string (file : ofstream) (s : string) : ofstream :=
  put file (list_byte_of_string s).

(** [file << n] for an unsigned integer: decimal digits, no padding. *)
Definition put_unsigned (file : ofstream) (n : N) : ofstream :=
  put_string file (NilZero.string_of_uint (N.to_uint n)).

(** [file.write(p, n)]. *)
Definition write (file : ofstream) (p : Pointer) (n : nat) : option ofstream :=
  match read p n with
  | Some bs => Some (put file bs)
  | None => None
  end.

(** [file.close()]: the bytes put into the stream are the file. *)
Definition close (file : ofstream) : M unit := λ w,
  Ok tt (set_files (insert (path file) (written file)) w).

End Stream.

(** ** [vks::tools] and [vks::VulkanDevice] *)

Module Tools.

Import Vk Device.

(** Modelled from the spec: the macro [VK_CHECK_RESULT] of [VulkanTools.h],
    which is not part of the sources at hand.  A result other than
    [VK_SUCCESS] is fatal and aborts the capture. *)
Definition VK_CHECK_RESULT (res : VkResult) : M unit := λ w,
  if decide (res = VK_SUCCESS) then Ok tt w else Fatal.

(** Modelled from the spec: [vks::tools::insertImageMemoryBarrier] of
    [VulkanTools.h] records one image memory barrier with the given masks,
    layouts, stages and subresource range. *)
Definition insertImageMemoryBarrier (cmd : VkCommandBuffer) (image : N)
    (srcAccessMask dstAccessMask : N) (oldImageLayout newImageLayout : VkImageLayout)
    (srcStageMask dstStageMask : N) (subresourceRange : VkImageSubresourceRange)
  : VkCommandBuffer :=
  cmd ++ [CmdPipelineBarrier image srcAccessMask dstAccessMask oldImageLayout
            newImageLayout srcStageMask dstStageMask subresourceRange].

(** Modelled from the spec: [VulkanDevice::getMemoryType] answers with the
    index of a memory type that satisfies the type bits and the property
    flags. *)
Definition getMemoryType (env : Env) (typeBits properties : N) : N :=
  memoryType env typeBits properties.

(** Modelled from the spec: [VulkanDevice::createCommandBuffer] allocates a
    one-shot command buffer and, with [begin = true], starts recording. *)
Definition createCommandBuffer (level : VkCommandBufferLevel) (begin : bool)
  : VkCommandBuffer := [].

(** Modelled from the spec: [VulkanDevice::flushCommandBuffer] submits the
    recorded sequence and blocks until the device has executed it; a
    failed submission is fatal.  The submitted buffer is entered in the
    record of submissions. *)
Definition flushCommandBuffer (env : Env) (cmd : VkCommandBuffer) (queue : N) : M unit := λ w,
  if decide (submitResult env = VK_SUCCESS) then
    match exec_commands cmd (images w) with
    | Some imgs => Ok tt (set_submitted (λ s, s ++ [cmd]) (set_images (λ _, imgs) w))
    | None => Undefined
    end
  else Fatal.

End Tools.

(** ** [Screenshot::save] *)

Module Screenshot.

Import Vk Device Tools.
Import Stream (LF).
Local Open Scope N_scope.

(** Lines 29-40: the capability probe. *)
Definition supportsBlit (env : Env) (srcFormat : VkFormat) : bool :=
  let supportsBlit := true in
  let formatProps := vkGetPhysicalDeviceFormatProperties env srcFormat in
  let supportsBlit :=
    if N.land (optimalTilingFeatures formatProps) VK_FORMAT_FEATURE_BLIT_SRC_BIT =? 0
    then false else supportsBlit in
  let formatProps := vkGetPhysicalDeviceFormatProperties env VK_FORMAT_R8G8B8A8_UNORM in
  let supportsBlit :=
    if N.land (linearTilingFeatures formatProps) VK_FORMAT_FEATURE_BLIT_DST_BIT =? 0
    then false else supportsBlit in
  supportsBlit.

(** Lines 42-54: the create info of the staging image. *)
Definition imageCreateCI (width height : N) : VkImageCreateInfo :=
  {| ici_sType := VK_STRUCTURE_TYPE_IMAGE_CREATE_INFO;
     imageType := VK_IMAGE_TYPE_2D;
     format := VK_FORMAT_R8G8B8A8_UNORM;
     extent := mkExtent3D width height 1;
     arrayLayers := 1;
     mipLevels := 1;
     initialLayout := VK_IMAGE_LAYOUT_UNDEFINED;
     samples := VK_SAMPLE_COUNT_1_BIT;
     tiling := VK_IMAGE_TILING_LINEAR;
     usage := VK_IMAGE_USAGE_TRANSFER_DST_BIT |}.

(** Lines 59-67: the allocation request for the staging memory. *)
Definition memAllocInfo (env : Env) (dstImage : N) : VkMemoryAllocateInfo :=
  let memRequirements := vkGetImageMemoryRequirements env dstImage in
  {| mai_sType := VK_STRUCTURE_TYPE_MEMORY_ALLOCATE_INFO;
     allocationSize := mr_size memRequirements;
     memoryTypeIndex :=
       getMemoryType env (memoryTypeBits memRequirements)
         (N.lor VK_MEMORY_PROPERTY_HOST_VISIBLE_BIT VK_MEMORY_PROPERTY_HOST_COHERENT_BIT) |}.

(** [VkImageSubresourceRange{ VK_IMAGE_ASPECT_COLOR_BIT, 0, 1, 0, 1 }]. *)
Definition colorRange : VkImageSubresourceRange :=
  mkSubresourceRange VK_IMAGE_ASPECT_COLOR_BIT 0 1 0 1.

(** Lines 71-129: what is recorded into the one-shot command buffer. *)
Definition recordCopy (supportsBlit : bool) (srcImage dstImage width height : N)
  : VkCommandBuffer :=
  let copyCmd := createCommandBuffer VK_COMMAND_BUFFER_LEVEL_PRIMARY true in
  let copyCmd :=
    insertImageMemoryBarrier copyCmd dstImage
      0 VK_ACCESS_TRANSFER_WRITE_BIT
      VK_IMAGE_LAYOUT_UNDEFINED VK_IMAGE_LAYOUT_TRANSFER_DST_OPTIMAL
      VK_PIPELINE_STAGE_TRANSFER_BIT VK_PIPELINE_STAGE_TRANSFER_BIT
      colorRange in
  let copyCmd :=
    insertImageMemoryBarrier copyCmd srcImage
      VK_ACCESS_MEMORY_READ_BIT VK_ACCESS_TRANSFER_READ_BIT
      VK_IMAGE_LAYOUT_PRESENT_SRC_KHR VK_IMAGE_LAYOUT_TRANSFER_SRC_OPTIMAL
      VK_PIPELINE_STAGE_TRANSFER_BIT VK_PIPELINE_STAGE_TRANSFER_BIT
      colorRange in
  let copyCmd :=
    if supportsBlit then
      let blitSize :=
        mkOffset3D (to_int32 (Z.of_N width)) (to_int32 (Z.of_N height)) 1 in
      let imageBlitRegion :=
        {| blit_srcSubresource := mkSubresourceLayers VK_IMAGE_ASPECT_COLOR_BIT 0 0 1;
           srcOffsets0 := zeroOffset3D;
           srcOffsets1 := blitSize;
           blit_dstSubresource := mkSubresourceLayers VK_IMAGE_ASPECT_COLOR_BIT 0 0 1;
           dstOffsets0 := zeroOffset3D;
           dstOffsets1 := blitSize |} in
      vkCmdBlitImage copyCmd
        srcImage VK_IMAGE_LAYOUT_TRANSFER_SRC_OPTIMAL
        dstImage VK_IMAGE_LAYOUT_TRANSFER_DST_OPTIMAL
        [imageBlitRegion] VK_FILTER_NEAREST
    else
      let imageCopyRegion :=
        {| srcSubresource := mkSubresourceLayers VK_IMAGE_ASPECT_COLOR_BIT 0 0 1;
           srcOffset := zeroOffset3D;
           dstSubresource := mkSubresourceLayers VK_IMAGE_ASPECT_COLOR_BIT 0 0 1;
           dstOffset := zeroOffset3D;
           copy_extent := mkExtent3D width height 1 |} in
      vkCmdCopyImage copyCmd
        srcImage VK_IMAGE_LAYOUT_TRANSFER_SRC_OPTIMAL
        dstImage VK_IMAGE_LAYOUT_TRANSFER_DST_OPTIMAL
        [imageCopyRegion] in
  let copyCmd :=
    insertImageMemoryBarrier copyCmd dstImage
      VK_ACCESS_TRANSFER_WRITE_BIT VK_ACCESS_MEMORY_READ_BIT
      VK_IMAGE_LAYOUT_TRANSFER_DST_OPTIMAL VK_IMAGE_LAYOUT_GENERAL
      VK_PIPELINE_STAGE_TRANSFER_BIT VK_PIPELINE_STAGE_TRANSFER_BIT
      colorRange in
  let copyCmd :=
    insertImageMemoryBarrier copyCmd srcImage
      VK_ACCESS_TRANSFER_READ_BIT VK_ACCESS_MEMORY_READ_BIT
      VK_IMAGE_LAYOUT_TRANSFER_SRC_OPTIMAL VK_IMAGE_LAYOUT_PRESENT_SRC_KHR
      VK_PIPELINE_STAGE_TRANSFER_BIT VK_PIPELINE_STAGE_TRANSFER_BIT
      colorRange in
  copyCmd.

(** [std::find(v.begin(), v.end(), x)], as the index of the iterator it
    returns; [v.end()] is [length v]. *)
Fixpoint std_find (v : list VkFormat) (x : VkFormat) : nat :=
  match v with
  | [] => O
  | e :: v' => if e =? x then O else S (std_find v' x)
  end.

(** Lines 151-155: is the channel swizzle needed. *)
Definition colorSwizzle (supportsBlit : bool) (srcFormat : VkFormat) : bool :=
  let colorSwizzle := false in
  if negb supportsBlit then
    let formatsBGR :=
      [VK_FORMAT_B8G8R8A8_SRGB; VK_FORMAT_B8G8R8A8_UNORM; VK_FORMAT_B8G8R8A8_SNORM] in
    negb (Nat.eqb (std_find formatsBGR srcFormat) (length formatsBGR))
  else colorSwizzle.

(** [sizeof(unsigned int)], the step of [row++]. *)
Definition sizeof_uint : N := 4.

(** Lines 160-166: one pixel goes out, swizzled or not. *)
Definition write_pixel (colorSwizzle : bool) (row : Pointer) (file : Stream.ofstream)
  : option Stream.ofstream :=
  if colorSwizzle then
    match Stream.write file (ptr_add row 2) 1 with
    | Some file =>
        match Stream.write file (ptr_add row 1) 1 with
        | Some file => Stream.write file row 1
        | None => None
        end
    | None => None
    end
  else Stream.write file row 3.

(** Lines 159-168: the inner loop, with [n] pixels of the row left. *)
Fixpoint pixel_loop (colorSwizzle : bool) (row : Pointer) (n : nat)
    (file : Stream.ofstream) : option Stream.ofstream :=
  match n with
  | O => Some file
  | S n' =>
      match write_pixel colorSwizzle row file with
      | Some file => pixel_loop colorSwizzle (ptr_add row sizeof_uint) n' file
      | None => None
      end
  end.

(** Lines 157-170: the outer loop, with [n] rows left. *)
Fixpoint row_loop (colorSwizzle : bool) (data : Pointer) (rowPitch width : N) (n : nat)
    (file : Stream.ofstream) : option Stream.ofstream :=
  match n with
  | O => Some file
  | S n' =>
      let row := data in
      match pixel_loop colorSwizzle row (N.to_nat width) file with
      | Some file => row_loop colorSwizzle (ptr_add data rowPitch) rowPitch width n' file
      | None => None
      end
  end.

(** The whole of [Screenshot::save].  [env] stands for [device],
    [physicalDevice] and [vulkanDevice]; the message printed to
    [std::cout] before [return true] is not part of the state.  [width]
    and [height] are [uint32_t]; the loop counters run up to them and
    never wrap. *)
Definition save (env : Env) (queue srcImage : N) (srcFormat : VkFormat)
    (width height : N) (filename : string) : M bool :=
  let supportsBlit := supportsBlit env srcFormat in
  let imageCreateCI := imageCreateCI width height in
  '(res, dstImage) ← vkCreateImage env imageCreateCI;
  VK_CHECK_RESULT res;;
  let memAllocInfo := memAllocInfo env dstImage in
  '(res, dstImageMemory) ← vkAllocateMemory env memAllocInfo;
  VK_CHECK_RESULT res;;
  res ← vkBindImageMemory env dstImage dstImageMemory 0;
  VK_CHECK_RESULT res;;
  let copyCmd := recordCopy supportsBlit srcImage dstImage width height in
  flushCommandBuffer env copyCmd queue;;
  let subResource := mkSubresource VK_IMAGE_ASPECT_COLOR_BIT 0 0 in
  let subResourceLayout := vkGetImageSubresourceLayout env dstImage subResource in
  '(_, data) ← vkMapMemory env dstImageMemory 0 VK_WHOLE_SIZE 0;
  data ← or_undefined data;
  let data := ptr_add data (offset subResourceLayout) in
  file ← Stream.open env filename;
  if negb (Stream.is_open file) then
    vkUnmapMemory dstImageMemory;;
    vkFreeMemory dstImageMemory;;
    vkDestroyImage dstImage;;
    mret false
  else
    let file := Stream.put_string file ("P6" +:+ LF) in
    let file := Stream.put_unsigned file width in
    let file := Stream.put_string file LF in
    let file := Stream.put_unsigned file height in
    let file := Stream.put_string file LF in
    let file := Stream.put_unsigned file 255 in
    let file := Stream.put_string file LF in
    let colorSwizzle := colorSwizzle supportsBlit srcFormat in
    file ← or_undefined
      (row_loop colorSwizzle data (rowPitch subResourceLayout) width (N.to_nat height) file);
    Stream.close file;;
    vkUnmapMemory dstImageMemory;;
    vkFreeMemory dstImageMemory;;
    vkDestroyImage dstImage;;
    mret true.

End Screenshot.

(** ** Vocabulary of the statements about [Screenshot::save] *)

Module Ppm.

Import Vk Device Screenshot.
Import Stream (LF).

(** Decimal rendering of an unsigned integer. *)
Definition dec (n : N) : list byte :=
  list_byte_of_string (NilZero.string_of_uint (N.to_uint n)).

(** The header of a binary pixmap: magic token, width, height and largest
    sample value, each closed by a line feed. *)
Definition header (width height : N) : list byte :=
  list_byte_of_string ("P6" +:+ LF) ++ dec width ++ list_byte_of_string LF
  ++ dec height ++ list_byte_of_string LF
  ++ dec 255 ++ list_byte_of_string LF.

(** Which byte of a four-byte source pixel provides output channel [c]. *)
Definition channel (colorSwizzle : bool) (c : nat) : nat :=
  if colorSwizzle then (2 - c)%nat else c.

(** Where the pixel in column [x] of row [y] starts in the mapped range. *)
Definition pixel_addr (sl : VkSubresourceLayout) (y x : nat) : nat :=
  (N.to_nat (offset sl) + N.to_nat (rowPitch sl) * y + 4 * x)%nat.

(** The mapped range holds the first three bytes of every pixel read. *)
Definition covers (region : list byte) (sl : VkSubresourceLayout) (width height : N) : Prop :=
  ∀ y x : nat, (y < N.to_nat height)%nat → (x < N.to_nat width)%nat →
    (pixel_addr sl y x + 3 ≤ length region)%nat.

(** The bytes of the pixmap after the header, as lists built the way the
    loops produce them: pixel by pixel and row by row. *)
Definition pixel (colorSwizzle : bool) (region : list byte) (a : nat) : list byte :=
  if colorSwizzle
  then take 1 (drop (a + 2) region) ++ take 1 (drop (a + 1) region) ++ take 1 (drop a region)
  else take 3 (drop a region).

Fixpoint row_bytes (colorSwizzle : bool) (region : list byte) (a n : nat) : list byte :=
  match n with
  | O => []
  | S n' => pixel colorSwizzle region a ++ row_bytes colorSwizzle region (a + 4) n'
  end.

Fixpoint rows_bytes (colorSwizzle : bool) (region : list byte) (a pitch w n : nat)
  : list byte :=
  match n with
  | O => []
  | S n' => row_bytes colorSwizzle region a w
            ++ rows_bytes colorSwizzle region (a + pitch) pitch w n'
  end.

Definition payload (env : Env) (srcFormat : VkFormat) (width height : N) : list byte :=
  let sl := imageSubresourceLayout env in
  rows_bytes (colorSwizzle (supportsBlit env srcFormat) srcFormat) (stagingBytes env)
    (N.to_nat (offset sl)) (N.to_nat (rowPitch sl)) (N.to_nat width) (N.to_nat height).

(** The source image is live and in the layout of a presentable image. *)
Definition presentable (w : World) (srcImage : N) : Prop :=
  ∃ st, images w !! srcImage = Some st ∧ layout st = VK_IMAGE_LAYOUT_PRESENT_SRC_KHR.

(** Every device operation of the capture succeeds. *)
Record device_ok (env : Env) (w : World) (srcImage width height : N) : Prop := mkDeviceOk {
  ok_create : createImageResult env (imageCreateCI width height) = VK_SUCCESS;
  ok_allocate : allocateMemoryResult env (memAllocInfo env (fresh (dom (images w)))) = VK_SUCCESS;
  ok_bind : bindImageMemoryResult env = VK_SUCCESS;
  ok_submit : submitResult env = VK_SUCCESS;
  ok_source : presentable w srcImage;
  ok_map : mapMemoryResult env = VK_SUCCESS
}.

(** The world a returning capture leaves behind. *)
Definition after_save (env : Env) (w : World) (srcImage : N) (srcFormat : VkFormat)
    (width height : N) (filename : string) : World :=
  mkWorld
    (<[srcImage := mkImageState VK_IMAGE_LAYOUT_PRESENT_SRC_KHR VK_ACCESS_MEMORY_READ_BIT]>
       (images w))
    (memory w)
    (if fileOpens env filename
     then <[filename := header width height ++ payload env srcFormat width height]> (files w)
     else files w)
    (submitted w
     ++ [recordCopy (supportsBlit env srcFormat) srcImage (fresh (dom (images w)))
           width height]).

(** A decimal field read back as a number. *)
Definition parse_dec (bs : list byte) : option N :=
  option_map N.of_uint (NilZero.uint_of_string (string_of_list_byte bs)).

(** Byte [c] of the output pixel in column [x] of row [y], in a payload of
    [width] pixels per row and three bytes per pixel. *)
Definition out_byte (pixels : list byte) (width : N) (y x c : nat) : option byte :=
  pixels !! (3 * (y * N.to_nat width + x) + c)%nat.

(** Byte [k] of the source pixel in column [x] of row [y] of the mapped
    staging image. *)
Definition in_byte (env : Env) (y x k : nat) : option byte :=
  stagingBytes env !! (pixel_addr (imageSubresourceLayout env) y x + k)%nat.

(** An address of the mapped range that lies in the padding of a row:
    behind the last pixel of the row and before the next row. *)
Definition in_row_padding (sl : VkSubresourceLayout) (width height : N) (a : nat) : Prop :=
  ∃ y : nat, (y < N.to_nat height)%nat ∧
    (pixel_addr sl y (N.to_nat width) ≤ a < pixel_addr sl (S y) 0)%nat.

(** The same capture with other contents in the mapped range. *)
Definition set_stagingBytes (bs : list byte) (env : Env) : Env :=
  mkEnv (formatProperties env) (createImageResult env) (imageMemoryRequirements env)
    (memoryType env) (allocateMemoryResult env) (bindImageMemoryResult env)
    (submitResult env) (imageSubresourceLayout env) (mapMemoryResult env)
    bs (fileOpens env).

(** Two captures are told the same capabilities and the same layout of
    the staging image. *)
Definition same_reports (env1 env2 : Env) : Prop :=
  (∀ fmt, formatProperties env1 fmt = formatProperties env2 fmt) ∧
  imageSubresourceLayout env1 = imageSubresourceLayout env2.

(** The transfers of two captures deliver the same four bytes for every
    pixel of the image; nothing is said about any other byte of the two
    mapped ranges. *)
Definition same_pixels (env1 env2 : Env) (width height : N) : Prop :=
  ∀ y x k : nat, (y < N.to_nat height)%nat → (x < N.to_nat width)%nat → (k < 4)%nat →
    in_byte env1 y x k = in_byte env2 y x k.

(** The transfer command of a capture: a blit of the full rectangle with
    nearest filtering on the accelerated path, a copy of the full
    rectangle otherwise. *)
Definition transferCmd (blit : bool) (srcImage dstImage width height : N) : Command :=
  if blit then
    CmdBlitImage srcImage VK_IMAGE_LAYOUT_TRANSFER_SRC_OPTIMAL
      dstImage VK_IMAGE_LAYOUT_TRANSFER_DST_OPTIMAL
      [mkImageBlit (mkSubresourceLayers VK_IMAGE_ASPECT_COLOR_BIT 0 0 1) zeroOffset3D
         (mkOffset3D (to_int32 (Z.of_N width)) (to_int32 (Z.of_N height)) 1)
         (mkSubresourceLayers VK_IMAGE_ASPECT_COLOR_BIT 0 0 1) zeroOffset3D
         (mkOffset3D (to_int32 (Z.of_N width)) (to_int32 (Z.of_N height)) 1)]
      VK_FILTER_NEAREST
  else
    CmdCopyImage srcImage VK_IMAGE_LAYOUT_TRANSFER_SRC_OPTIMAL
      dstImage VK_IMAGE_LAYOUT_TRANSFER_DST_OPTIMAL
      [mkImageCopy (mkSubresourceLayers VK_IMAGE_ASPECT_COLOR_BIT 0 0 1) zeroOffset3D
         (mkSubresourceLayers VK_IMAGE_ASPECT_COLOR_BIT 0 0 1) zeroOffset3D
         (mkExtent3D width height 1)].

Definition is_blit (c : Command) : bool :=
  match c with CmdBlitImage _ _ _ _ _ _ => true | _ => false end.

Definition is_copy (c : Command) : bool :=
  match c with CmdCopyImage _ _ _ _ _ => true | _ => false end.

End Ppm.

(** ** Vocabulary of the statements about [MemoryTracker] *)

Module TrackerSpec.

Import Tracker.
Local Open Scope Z_scope.

(** The link between the tracker and the reference bookkeeping that every
    mutator preserves. *)
Record agrees (t : MemoryTracker) (l : Live) : Prop := mkAgrees {
  agrees_map : allocations t = list_to_map l;
  agrees_nodup : NoDup l.*1;
  agrees_total : totalAllocated t = wrap64 (sum_sizes l);
  agrees_tagged : ∀ tg, str_empty tg = false →
    subscript (taggedAllocations t) tg = wrap64 (sum_sizes (with_tag tg l));
  agrees_untagged : taggedAllocations t !! EmptyString = None
}.

(** The accounting invariant with sums taken as written, over the
    integers, and for every tag. *)
Definition exact_invariant (t : MemoryTracker) (l : Live) : Prop :=
  getTotalAllocated t = sum_sizes l ∧
  getAllocationCount t = Z.of_nat (length l) ∧
  ∀ tg, getAllocationByTag tg t = sum_sizes (with_tag tg l).

(** The accounting invariant of the tracker: sums are [VkDeviceSize] sums,
    the per-tag counters exist for non-empty tags, and the empty tag
    counts nothing. *)
Definition invariant (t : MemoryTracker) (l : Live) : Prop :=
  getTotalAllocated t = wrap64 (sum_sizes l) ∧
  getAllocationCount t = Z.of_nat (length l) ∧
  (∀ tg, tg ≠ EmptyString → getAllocationByTag tg t = wrap64 (sum_sizes (with_tag tg l))) ∧
  getAllocationByTag EmptyString t = 0.

End TrackerSpec.

(** ** Concrete captures and traces used to exercise the definitions *)

Module Examples.

Import Vk Device Screenshot Ppm.
Local Open Scope N_scope.

(** A driver without blit support that pads each row of a 2x2 staging
    image to 12 bytes and places it 4 bytes into a 32 byte allocation. *)
Definition env0 : Env :=
  {| formatProperties := λ _, mkFormatProperties 0 0 0;
     createImageResult := λ _, VK_SUCCESS;
     imageMemoryRequirements := mkMemoryRequirements 32 4 1;
     memoryType := λ _ _, 0;
     allocateMemoryResult := λ _, VK_SUCCESS;
     bindImageMemoryResult := VK_SUCCESS;
     submitResult := VK_SUCCESS;
     imageSubresourceLayout := mkSubresourceLayout 4 24 12 0 0;
     mapMemoryResult := VK_SUCCESS;
     stagingBytes := map (λ n, default x00 (Byte.of_nat n)) (seq 0 32);
     fileOpens := λ _, true |}.

(** The same driver on a disk that refuses to open the file. *)
Definition env_closed : Env :=
  mkEnv (formatProperties env0) (createImageResult env0) (imageMemoryRequirements env0)
    (memoryType env0) (allocateMemoryResult env0) (bindImageMemoryResult env0)
    (submitResult env0) (imageSubresourceLayout env0) (mapMemoryResult env0)
    (stagingBytes env0) (λ _, false).

(** A driver with blit support for every format. *)
Definition env_blit : Env :=
  mkEnv (λ _, mkFormatProperties 0xc00 0xc00 0) (createImageResult env0)
    (imageMemoryRequirements env0) (memoryType env0) (allocateMemoryResult env0)
    (bindImageMemoryResult env0) (submitResult env0) (imageSubresourceLayout env0)
    (mapMemoryResult env0) (stagingBytes env0) (fileOpens env0).

(** A device whose only live image, with handle 7, is presentable. *)
Definition w0 : World :=
  mkWorld {[ 7 := mkImageState VK_IMAGE_LAYOUT_PRESENT_SRC_KHR VK_ACCESS_MEMORY_READ_BIT ]}
    ∅ ∅ [].


Definition shot : string := "shot.ppm".

(** The mapped range of [env0] with every padding byte set to 255. *)
Definition repadded : list byte :=
  map (λ n, if (12 <=? n)%nat && (n <? 16)%nat || (24 <=? n)%nat && (n <? 28)%nat
            then xff else default x00 (Byte.of_nat n)) (seq 0 32).

(** A trace of the tracker: two tagged and untagged allocations, a free
    and a reset. *)
Definition trace0 : list Tracker.Op :=
  [Tracker.CallRecordAllocation 1 10 0 "a";
   Tracker.CallRecordAllocation 2 5 0 EmptyString;
   Tracker.CallRecordFree 1;
   Tracker.CallReset].

(** One untagged allocation. *)
Definition trace_untagged : list Tracker.Op :=
  [Tracker.CallRecordAllocation 1 10 0 EmptyString].

(** Two untagged allocations of [2^63] bytes under distinct handles. *)
Definition trace_halves : list Tracker.Op :=
  [Tracker.CallRecordAllocation 1 (2 ^ 63) 0 EmptyString;
   Tracker.CallRecordAllocation 2 (2 ^ 63) 0 EmptyString].

(** Two tagged allocations. *)
Definition trace_tagged : list Tracker.Op :=
  [Tracker.CallRecordAllocation 1 10 0 "a"; Tracker.CallRecordAllocation 2 5 0 "b"].

End Examples.

(** ** Further vocabulary for [MemoryTracker] *)

Module TrackerExtra.

Import Tracker TrackerSpec.
Local Open Scope Z_scope.

(** A value that fits [VkDeviceSize]. *)
Definition u64 (z : Z) : Prop := 0 ≤ z < 2 ^ 64.

(** The trace holds no [reset]. *)
Definition no_reset (ops : list Op) : bool :=
  forallb (λ o, match o with CallReset => false | _ => true end) ops.

(** Every recorded size is non-negative and the sizes of the live
    allocations never add up to [2^64] or more. *)
Fixpoint within_u64_from (l : Live) (ops : list Op) : bool :=
  match ops with
  | [] => true
  | o :: ops' =>
      match o with
      | CallRecordAllocation _ sz _ _ => 0 <=? sz
      | _ => true
      end
      && (sum_sizes (live_step l o) <? 2 ^ 64)
      && within_u64_from (live_step l o) ops'
  end.

Definition within_u64 (ops : list Op) : bool := within_u64_from [] ops.

(** The tracker agrees with the reference bookkeeping and no counter has
    wrapped. *)
Record exact (t : MemoryTracker) (l : Live) : Prop := mkExact {
  exact_agrees : agrees t l;
  exact_nonneg : Forall (λ e, 0 ≤ size e.2) l;
  exact_bound : sum_sizes l < 2 ^ 64;
  exact_peak : totalAllocated t ≤ peakAllocated t
}.

End TrackerExtra.

(** ** Further vocabulary for [Screenshot::save] *)

Module PpmRead.

Import Vk Device Screenshot Ppm.

(** A reader for the files that [save] writes: the token [P6] and a line
    feed, then three decimal fields each closed by a line feed, then the
    pixel bytes. *)
Definition is_digit (b : byte) : bool :=
  (48 <=? Byte.to_N b)%N && (Byte.to_N b <=? 57)%N.

Fixpoint digits (bs : list byte) : list byte * list byte :=
  match bs with
  | [] => ([], [])
  | b :: bs' =>
      if is_digit b
      then let '(ds, rest) := digits bs' in (b :: ds, rest)
      else ([], bs)
  end.

Definition field (bs : list byte) : option (N * list byte) :=
  let '(ds, rest) := digits bs in
  match rest with
  | b :: rest' =>
      if Byte.eqb b x0a
      then match parse_dec ds with
           | Some n => Some (n, rest')
           | None => None
           end
      else None
  | [] => None
  end.

Definition read_ppm (bs : list byte) : option (N * N * N * list byte) :=
  match bs with
  | x50 :: x36 :: x0a :: rest =>
      match field rest with
      | Some (width, rest) =>
          match field rest with
          | Some (height, rest) =>
              match field rest with
              | Some (maxval, pixels) => Some (width, height, maxval, pixels)
              | None => None
              end
          | None => None
          end
      | None => None
      end
  | _ => None
  end.

(** The accelerated transfer has delivered, for every pixel, the first
    three bytes that the raw copy delivers, in the opposite order. *)
Definition swapped_pixels (env_b env_c : Env) (width height : N) : Prop :=
  ∀ y x c : nat, (y < N.to_nat height)%nat → (x < N.to_nat width)%nat → (c < 3)%nat →
    in_byte env_b y x c = in_byte env_c y x (2 - c).

End PpmRead.

(** ** Further concrete captures *)

Module MoreExamples.

Import Vk Device Screenshot Ppm.

(** A driver like [env0] that has run the blit: every pixel of the mapped
    range has its first and third byte exchanged. *)
Definition env_swapped : Env :=
  mkEnv (formatProperties Examples.env_blit) (createImageResult Examples.env0)
    (imageMemoryRequirements Examples.env0) (memoryType Examples.env0)
    (allocateMemoryResult Examples.env0) (bindImageMemoryResult Examples.env0)
    (submitResult Examples.env0) (imageSubresourceLayout Examples.env0)
    (mapMemoryResult Examples.env0)
    (map (λ n, default x00
                 (Byte.of_nat (if (n mod 4 =? 0)%nat then n + 2
                               else if (n mod 4 =? 2)%nat then n - 2 else n)))
       (seq 0 32))
    (fileOpens Examples.env0).

(** A driver like [env0] whose mapped range is empty. *)
Definition env_unmapped : Env := set_stagingBytes [] Examples.env0.

End MoreExamples.

(** * Properties of [MemoryTracker] *)

Section TrackerFacts.

Import Tracker TrackerSpec.
Local Open Scope Z_scope.

Lemma wrap64_add_l a b : wrap64 (wrap64 a + b) = wrap64 (a + b).
Proof. unfold wrap64. apply Zplus_mod_idemp_l. Qed.

Lemma wrap64_sub_l a b : wrap64 (wrap64 a - b) = wrap64 (a - b).
Proof. unfold wrap64. apply Zminus_mod_idemp_l. Qed.

Lemma str_empty_spec s : str_empty s = true ↔ s = EmptyString.
Proof. destruct s; simpl; split; congruence. Qed.

Lemma sum_sizes_cons e l : sum_sizes (e :: l) = size e.2 + sum_sizes l.
Proof. reflexivity. Qed.

Lemma with_tag_cons tg e l :
  with_tag tg (e :: l) = if decide (tag e.2 = tg) then e :: with_tag tg l else with_tag tg l.
Proof. unfold with_tag. rewrite filter_cons. reflexivity. Qed.

(** Dropping a handle from the reference list, seen on the map side. *)
Lemma list_to_map_drop (k : Z) (l : Live) :
  (list_to_map (filter (λ e, e.1 ≠ k) l) : gmap Z AllocationInfo)
  = delete k (list_to_map l).
Proof.
  induction l as [|[k' v] l IH].
  - by rewrite filter_nil, list_to_map_nil, delete_empty.
  - rewrite filter_cons, list_to_map_cons. simpl.
    destruct (decide (k' ≠ k)) as [Hne|Heq].
    + rewrite list_to_map_cons, IH. by rewrite delete_insert_ne.
    + apply dec_stable in Heq. subst k'. rewrite IH.
      by rewrite delete_insert_eq.
Qed.

Lemma drop_absent (k : Z) (l : Live) :
  k ∉ l.*1 → filter (λ e, e.1 ≠ k) l = l.
Proof.
  induction l as [|[k' v] l IH]; intros Hk; [done|].
  rewrite fmap_cons, not_elem_of_cons in Hk. destruct Hk as [Hne Hk].
  rewrite filter_cons. simpl in *. destruct (decide (k' ≠ k)) as [|Hn]; [|exfalso; apply Hn; congruence].
  by rewrite IH.
Qed.

Lemma NoDup_drop (k : Z) (l : Live) :
  NoDup l.*1 → NoDup (filter (λ e, e.1 ≠ k) l).*1.
Proof.
  induction l as [|[k' v] l IH]; intros Hnd; [done|].
  rewrite fmap_cons in Hnd. apply NoDup_cons in Hnd as [Hk' Hnd].
  rewrite filter_cons. cbn [fst]. destruct (decide (k' ≠ k)); [|by apply IH].
  rewrite fmap_cons. apply NoDup_cons. split; [|by apply IH].
  intros Hin. apply Hk'.
  apply list_elem_of_fmap in Hin as [e [-> He]].
  apply list_elem_of_filter in He as [_ He].
  by apply list_elem_of_fmap_2.
Qed.

(** Freeing a live handle takes exactly its recorded size out of the sums. *)
Lemma sum_sizes_drop (k : Z) (v : AllocationInfo) (l : Live) :
  NoDup l.*1 →
  (list_to_map l : gmap Z AllocationInfo) !! k = Some v →
  sum_sizes (filter (λ e, e.1 ≠ k) l) = sum_sizes l - size v.
Proof.
  induction l as [|[k' v'] l IH]; intros Hnd Hk.
  - by rewrite list_to_map_nil, lookup_empty in Hk.
  - rewrite fmap_cons in Hnd. rewrite list_to_map_cons in Hk.
    apply NoDup_cons in Hnd as [Hk' Hnd]. rewrite filter_cons. cbn [fst snd] in *.
    destruct (decide (k' ≠ k)) as [Hne|Heq].
    + rewrite lookup_insert_ne in Hk by done.
      rewrite !sum_sizes_cons, IH by done. cbn [fst snd]. lia.
    + apply dec_stable in Heq. subst k'. rewrite lookup_insert_eq in Hk.
      injection Hk as ->. rewrite drop_absent by done.
      rewrite sum_sizes_cons. cbn [fst snd]. lia.
Qed.

Lemma sum_tag_drop (tg : string) (k : Z) (v : AllocationInfo) (l : Live) :
  NoDup l.*1 →
  (list_to_map l : gmap Z AllocationInfo) !! k = Some v →
  sum_sizes (with_tag tg (filter (λ e, e.1 ≠ k) l))
  = sum_sizes (with_tag tg l) - (if decide (tag v = tg) then size v else 0).
Proof.
  induction l as [|[k' v'] l IH]; intros Hnd Hk.
  - by rewrite list_to_map_nil, lookup_empty in Hk.
  - rewrite fmap_cons in Hnd. rewrite list_to_map_cons in Hk.
    apply NoDup_cons in Hnd as [Hk' Hnd]. rewrite filter_cons. cbn [fst snd] in *.
    destruct (decide (k' ≠ k)) as [Hne|Heq].
    + rewrite lookup_insert_ne in Hk by done.
      rewrite !with_tag_cons. cbn [fst snd]. destruct (decide (tag v' = tg)).
      * rewrite !sum_sizes_cons, IH by done. cbn [fst snd]. lia.
      * by rewrite IH.
    + apply dec_stable in Heq. subst k'. rewrite lookup_insert_eq in Hk.
      injection Hk as ->. rewrite drop_absent by done.
      rewrite with_tag_cons. cbn [fst snd]. destruct (decide (tag v = tg)).
      * rewrite sum_sizes_cons. cbn [fst snd]. lia.
      * lia.
Qed.

Ltac tracker_fields :=
  cbn [allocations totalAllocated peakAllocated taggedAllocations
       live_step fst snd size tag memoryTypeIndex].

Lemma agrees_init : agrees instance0 [].
Proof.
  split; simpl; try done. constructor.
Qed.

Lemma agrees_recordAllocation memory sz idx tg t l :
  agrees t l → is_live memory l = false →
  agrees (recordAllocation memory sz idx tg t) (live_step l (CallRecordAllocation memory sz idx tg)).
Proof.
  intros [Hm Hnd Ht Htag Hun] Hfresh.
  unfold is_live in Hfresh. apply bool_decide_eq_false in Hfresh.
  unfold recordAllocation. split; tracker_fields.
  - by rewrite Hm.
  - rewrite fmap_cons. by apply NoDup_cons.
  - rewrite Ht, wrap64_add_l, sum_sizes_cons. tracker_fields. apply (f_equal wrap64). lia.
  - intros tg' Htg'. rewrite with_tag_cons. tracker_fields.
    destruct (str_empty tg) eqn:Hemp; simpl negb; cbv iota.
    + apply str_empty_spec in Hemp. subst tg.
      destruct (decide (EmptyString = tg')) as [<-|]; [done|]. by apply Htag.
    + unfold subscript at 1. destruct (decide (tg = tg')) as [<-|Hne].
      * rewrite lookup_insert_eq. cbn [default]. fold (subscript (taggedAllocations t) tg).
        rewrite Htag by done.
        rewrite wrap64_add_l, sum_sizes_cons. tracker_fields. apply (f_equal wrap64). lia.
      * rewrite lookup_insert_ne by done. by apply Htag.
  - destruct (str_empty tg) eqn:Hemp; simpl negb; cbv iota; [done|].
    rewrite lookup_insert_ne; [done|]. intros ->. done.
Qed.

Lemma agrees_recordFree memory t l :
  agrees t l → agrees (recordFree memory t) (live_step l (CallRecordFree memory)).
Proof.
  intros [Hm Hnd Ht Htag Hun]. unfold recordFree. simpl.
  destruct (allocations t !! memory) as [it|] eqn:Hit.
  - rewrite Hm in Hit. split; simpl.
    + by rewrite Hm, list_to_map_drop.
    + by apply NoDup_drop.
    + rewrite Ht, wrap64_sub_l. by erewrite sum_sizes_drop.
    + intros tg' Htg'. erewrite sum_tag_drop by done.
      destruct (str_empty (tag it)) eqn:Hemp; simpl.
      * apply str_empty_spec in Hemp. rewrite Hemp.
        destruct (decide (EmptyString = tg')) as [<-|]; [done|].
        rewrite Htag by done. apply (f_equal wrap64). lia.
      * unfold subscript. destruct (decide (tag it = tg')) as [<-|Hne].
        -- rewrite lookup_insert_eq. simpl.
           fold (subscript (taggedAllocations t) (tag it)).
           by rewrite Htag, wrap64_sub_l.
        -- rewrite lookup_insert_ne by done.
           fold (subscript (taggedAllocations t) tg'). rewrite Htag by done.
           apply (f_equal wrap64). lia.
    + destruct (str_empty (tag it)) eqn:Hemp; simpl; [done|].
      rewrite lookup_insert_ne; [done|]. intros Heq. by rewrite Heq in Hemp.
  - rewrite Hm in Hit. apply not_elem_of_list_to_map in Hit.
    rewrite drop_absent by done. by split.
Qed.

Lemma agrees_step t l o :
  agrees t l →
  match o with CallRecordAllocation memory _ _ _ => is_live memory l = false | _ => True end →
  agrees (step t o) (live_step l o).
Proof.
  intros Ha Ho. destruct o as [memory sz idx tg|memory|].
  - by apply agrees_recordAllocation.
  - by apply agrees_recordFree.
  - apply agrees_init.
Qed.

Lemma agrees_run ops : ∀ t l,
  agrees t l → fresh_allocs_from l ops = true →
  agrees (fold_left step ops t) (fold_left live_step ops l).
Proof.
  induction ops as [|o ops IH]; simpl; intros t l Ha Hf; [done|].
  apply andb_prop in Hf as [Ho Hf]. apply IH; [|done].
  apply agrees_step; [done|]. destruct o; try done.
  by apply negb_true_iff in Ho.
Qed.

Lemma fresh_allocs_take k ops : ∀ l,
  fresh_allocs_from l ops = true → fresh_allocs_from l (take k ops) = true.
Proof.
  revert ops. induction k as [|k IH]; intros [|o ops] l; simpl; try done.
  intros [Ho Hf]%andb_prop. rewrite Ho. simpl. by apply IH.
Qed.

End TrackerFacts.

Section TrackerClaims.

Import Tracker TrackerSpec Examples.
Local Open Scope Z_scope.

Lemma agrees_invariant t l : agrees t l → invariant t l.
Proof.
  intros [Hm Hnd Ht Htag Hun]. unfold invariant, getTotalAllocated,
    getAllocationCount, getAllocationByTag.
  split; [done|]. split.
  - rewrite Hm, map_size_list_to_map by done. done.
  - split; [|by rewrite Hun].
    intros tg Htg. rewrite <- Htag.
    + unfold subscript. by destruct (taggedAllocations t !! tg).
    + destruct tg; [done|reflexivity].
Qed.

(** C9 (as amended).  Along every trace of [recordAllocation],
    [recordFree] and [reset] calls that never records a handle which is
    live at that time, after each call: [totalAllocated] is the sum of the
    sizes of the live allocations reduced modulo [2^64],
    [getAllocationCount] is their number, [getAllocationByTag] is for
    every non-empty tag the sum modulo [2^64] of the sizes of the live
    allocations recorded with that tag, and it is 0 for the empty tag. *)
Theorem tracker_accounting (ops : list Op) (k : nat) :
  fresh_allocs ops = true →
  invariant (run (take k ops)) (live (take k ops)).
Proof.
  intros Hf. apply agrees_invariant. unfold run, live.
  apply agrees_run; [apply agrees_init|].
  by apply fresh_allocs_take.
Qed.

Lemma tracker_accounting_witness :
  invariant (run (take 2 trace0)) (live (take 2 trace0)).
Proof.
  apply (tracker_accounting trace0 2). vm_compute. reflexivity.
Defined.

(** C9 (as stated) fails, in two ways.  After one untagged allocation of
    10 bytes the counter of the empty tag reads 0 while the live
    allocations recorded with the empty tag add up to 10.  After two
    allocations of [2^63] bytes each, under distinct handles, the running
    total has wrapped to 0 while the sizes add up to [2^64]. *)
Lemma tracker_accounting_counterexample :
  (fresh_allocs trace_untagged = true ∧
   getAllocationByTag EmptyString (run trace_untagged) = 0 ∧
   sum_sizes (with_tag EmptyString (live trace_untagged)) = 10 ∧
   ¬ exact_invariant (run trace_untagged) (live trace_untagged)) ∧
  (fresh_allocs trace_halves = true ∧
   getTotalAllocated (run trace_halves) = 0 ∧
   sum_sizes (live trace_halves) = 2 ^ 64 ∧
   ¬ exact_invariant (run trace_halves) (live trace_halves)).
Proof.
  split.
  - split; [vm_compute; reflexivity|]. split; [vm_compute; reflexivity|].
    split; [vm_compute; reflexivity|].
    intros (_ & _ & Htag). specialize (Htag EmptyString).
    vm_compute in Htag. discriminate Htag.
  - split; [vm_compute; reflexivity|]. split; [vm_compute; reflexivity|].
    split; [vm_compute; reflexivity|].
    intros (Ht & _ & _). vm_compute in Ht. discriminate Ht.
Qed.

(** C10.  [recordFree] of a handle without a live recorded allocation
    leaves the tracker as it was: the running total, the peak, the map of
    allocations and every per-tag counter. *)
Theorem recordFree_unknown_handle (t : MemoryTracker) (memory : Z) :
  allocations t !! memory = None →
  recordFree memory t = t ∧
  totalAllocated (recordFree memory t) = totalAllocated t ∧
  peakAllocated (recordFree memory t) = peakAllocated t ∧
  allocations (recordFree memory t) = allocations t ∧
  ∀ tg, getAllocationByTag tg (recordFree memory t) = getAllocationByTag tg t.
Proof.
  intros Hnone. unfold recordFree. rewrite Hnone. by repeat split.
Qed.

Lemma recordFree_unknown_handle_witness :
  recordFree 3 (run trace_tagged) = run trace_tagged ∧
  totalAllocated (recordFree 3 (run trace_tagged)) = totalAllocated (run trace_tagged) ∧
  peakAllocated (recordFree 3 (run trace_tagged)) = peakAllocated (run trace_tagged) ∧
  allocations (recordFree 3 (run trace_tagged)) = allocations (run trace_tagged) ∧
  ∀ tg, getAllocationByTag tg (recordFree 3 (run trace_tagged))
        = getAllocationByTag tg (run trace_tagged).
Proof.
  apply (recordFree_unknown_handle (run trace_tagged) 3). vm_compute. reflexivity.
Defined.

(** Small runs of the tracker. *)
Example tracker_run_total :
  getTotalAllocated (run (trace_tagged ++ [CallRecordFree 1])) = 5.
Proof. vm_compute. reflexivity. Qed.

Example tracker_run_peak :
  getPeakAllocated (run (trace_tagged ++ [CallRecordFree 1])) = 15.
Proof. vm_compute. reflexivity. Qed.

Example tracker_run_tag :
  getAllocationByTag "b" (run (trace_tagged ++ [CallRecordFree 1])) = 5
  ∧ getAllocationByTag "a" (run (trace_tagged ++ [CallRecordFree 1])) = 0.
Proof. split; vm_compute; reflexivity. Qed.

End TrackerClaims.

(** * Properties of [Screenshot::save] *)

Section ReadbackFacts.

Import Vk Device Tools Screenshot Ppm.

Lemma write_Some file region a n :
  (N.to_nat a + n ≤ length region)%nat →
  Stream.write file (mkPointer region a) n
  = Some (Stream.put file (take n (drop (N.to_nat a) region))).
Proof.
  intros Hle. unfold Stream.write, read. cbn [addr Device.region].
  by rewrite decide_True.
Qed.

Lemma write_None file region a n :
  ¬ (N.to_nat a + n ≤ length region)%nat →
  Stream.write file (mkPointer region a) n = None.
Proof.
  intros Hle. unfold Stream.write, read. cbn [addr Device.region].
  by rewrite decide_False.
Qed.

Lemma put_put file bs1 bs2 :
  Stream.put (Stream.put file bs1) bs2 = Stream.put file (bs1 ++ bs2).
Proof. unfold Stream.put. simpl. by rewrite app_assoc. Qed.

Lemma put_nil file : Stream.put file [] = file.
Proof. destruct file. unfold Stream.put. simpl. by rewrite app_nil_r. Qed.

(** One pixel: it goes out exactly when its first three bytes are mapped. *)
Lemma write_pixel_iff swz region a file file' :
  write_pixel swz (mkPointer region a) file = Some file' ↔
  (N.to_nat a + 3 ≤ length region)%nat ∧
  file' = Stream.put file (pixel swz region (N.to_nat a)).
Proof.
  unfold write_pixel, pixel, ptr_add. cbn [addr Device.region].
  destruct (decide (N.to_nat a + 3 ≤ length region)%nat) as [Hle|Hgt].
  - destruct swz.
    + rewrite !write_Some by lia. rewrite !put_put.
      replace (N.to_nat (a + 2)) with (N.to_nat a + 2)%nat by lia.
      replace (N.to_nat (a + 1)) with (N.to_nat a + 1)%nat by lia.
      rewrite <- ?app_assoc.
      split; [intros [= <-]|intros [_ ->]]; done.
    + rewrite write_Some by lia.
      split; [intros [= <-]|intros [_ ->]]; done.
  - destruct swz.
    + rewrite (write_None _ _ (a + 2)) by lia. split; [done|]. by intros [? _].
    + rewrite write_None by lia. split; [done|]. by intros [? _].
Qed.

Lemma pixel_loop_iff swz region n : ∀ a file file',
  pixel_loop swz (mkPointer region a) n file = Some file' ↔
  (∀ x, (x < n)%nat → (N.to_nat a + 4 * x + 3 ≤ length region)%nat) ∧
  file' = Stream.put file (row_bytes swz region (N.to_nat a) n).
Proof.
  induction n as [|n IH]; intros a file file'; cbn [pixel_loop row_bytes].
  - rewrite put_nil. split; [intros [= <-]|intros [_ ->]]; [split|]; [lia|done..].
  - destruct (write_pixel swz (mkPointer region a) file) as [f1|] eqn:Hpx.
    + apply write_pixel_iff in Hpx as [Hle ->].
      unfold ptr_add, sizeof_uint. cbn [addr Device.region].
      rewrite IH, put_put.
      replace (N.to_nat (a + 4)) with (N.to_nat a + 4)%nat by lia.
      split; intros [Hr ->]; (split; [|done]); intros x Hx.
      * destruct x as [|x]; [lia|]. specialize (Hr x). lia.
      * specialize (Hr (S x)). lia.
    + split; [done|]. intros [Hr _]. exfalso.
      assert (Hle : (N.to_nat a + 3 ≤ length region)%nat) by (specialize (Hr O); lia).
      pose proof (proj2 (write_pixel_iff swz region a file _) (conj Hle eq_refl)) as Hs.
      congruence.
Qed.

Lemma row_loop_iff swz region pitch width n : ∀ a file file',
  row_loop swz (mkPointer region a) pitch width n file = Some file' ↔
  (∀ y x, (y < n)%nat → (x < N.to_nat width)%nat →
     (N.to_nat a + N.to_nat pitch * y + 4 * x + 3 ≤ length region)%nat) ∧
  file' = Stream.put file
    (rows_bytes swz region (N.to_nat a) (N.to_nat pitch) (N.to_nat width) n).
Proof.
  induction n as [|n IH]; intros a file file'; cbn [row_loop rows_bytes].
  - rewrite put_nil. split; [intros [= <-]|intros [_ ->]]; [split|]; [lia|done..].
  - destruct (pixel_loop swz (mkPointer region a) (N.to_nat width) file) as [f1|] eqn:Hrow.
    + apply pixel_loop_iff in Hrow as [Hle ->].
      unfold ptr_add. cbn [addr Device.region]. rewrite IH, put_put.
      replace (N.to_nat (a + pitch)) with (N.to_nat a + N.to_nat pitch)%nat by lia.
      split; intros [Hr ->]; (split; [|done]); intros y x Hy Hx.
      * destruct y as [|y]; [specialize (Hle x); lia|]. specialize (Hr y x). lia.
      * specialize (Hr (S y) x). lia.
    + split; [done|]. intros [Hr _]. exfalso.
      assert (Hle : ∀ x, (x < N.to_nat width)%nat →
                (N.to_nat a + 4 * x + 3 ≤ length region)%nat).
      { intros x Hx. specialize (Hr O x). lia. }
      pose proof (proj2 (pixel_loop_iff swz region _ a file _) (conj Hle eq_refl)) as Hs.
      congruence.
Qed.

Lemma pixel_length swz region a :
  (a + 3 ≤ length region)%nat → length (pixel swz region a) = 3%nat.
Proof.
  intros Hle. unfold pixel. destruct swz.
  - rewrite !length_app, !length_take, !length_drop. lia.
  - rewrite length_take, length_drop. lia.
Qed.

Lemma pixel_lookup swz region a c :
  (a + 3 ≤ length region)%nat → (c < 3)%nat →
  pixel swz region a !! c = region !! (a + channel swz c)%nat.
Proof.
  intros Hle Hc. unfold pixel, channel. destruct swz.
  - destruct c as [|[|[|c]]]; [| | |lia].
    + rewrite lookup_app_l by (rewrite length_take, length_drop; lia).
      rewrite lookup_take_lt, lookup_drop by lia. f_equal. lia.
    + rewrite lookup_app_r by (rewrite length_take, length_drop; lia).
      rewrite lookup_app_l by (rewrite !length_take, !length_drop; lia).
      rewrite lookup_take_lt, lookup_drop by (rewrite length_take, length_drop; lia).
      f_equal. rewrite length_take, length_drop. lia.
    + rewrite lookup_app_r by (rewrite length_take, length_drop; lia).
      rewrite lookup_app_r by (rewrite !length_take, !length_drop; lia).
      rewrite lookup_take_lt, lookup_drop by (rewrite !length_take, !length_drop; lia).
      f_equal. rewrite !length_take, !length_drop. lia.
  - by rewrite lookup_take_lt, lookup_drop by lia.
Qed.

Lemma row_bytes_length swz region n : ∀ a,
  (∀ x, (x < n)%nat → (a + 4 * x + 3 ≤ length region)%nat) →
  length (row_bytes swz region a n) = (3 * n)%nat.
Proof.
  induction n as [|n IH]; intros a Hr; cbn [row_bytes]; [done|].
  rewrite length_app, pixel_length by (specialize (Hr O); lia).
  rewrite IH; [lia|]. intros x Hx. specialize (Hr (S x)). lia.
Qed.

Lemma row_bytes_lookup swz region n : ∀ a x c,
  (∀ x, (x < n)%nat → (a + 4 * x + 3 ≤ length region)%nat) →
  (x < n)%nat → (c < 3)%nat →
  row_bytes swz region a n !! (3 * x + c)%nat
  = region !! (a + 4 * x + channel swz c)%nat.
Proof.
  induction n as [|n IH]; intros a x c Hr Hx Hc; [lia|]. cbn [row_bytes].
  assert (Ha : (a + 3 ≤ length region)%nat) by (specialize (Hr O); lia).
  destruct x as [|x].
  - replace (3 * 0 + c)%nat with c by lia.
    rewrite lookup_app_l by (rewrite pixel_length by done; lia).
    rewrite pixel_lookup by done. f_equal. lia.
  - rewrite lookup_app_r by (rewrite pixel_length by done; lia).
    rewrite pixel_length by done.
    replace (3 * S x + c - 3)%nat with (3 * x + c)%nat by lia.
    rewrite IH; [f_equal; lia| |lia|done].
    intros x' Hx'. specialize (Hr (S x')). lia.
Qed.

Lemma rows_bytes_length swz region pitch w n : ∀ a,
  (∀ y x, (y < n)%nat → (x < w)%nat → (a + pitch * y + 4 * x + 3 ≤ length region)%nat) →
  length (rows_bytes swz region a pitch w n) = (3 * w * n)%nat.
Proof.
  induction n as [|n IH]; intros a Hr; cbn [rows_bytes]; [cbn [length]; lia|].
  rewrite length_app, row_bytes_length.
  - rewrite IH; [nia|]. intros y x Hy Hx. specialize (Hr (S y) x). lia.
  - intros x Hx. specialize (Hr O x). lia.
Qed.

Lemma rows_bytes_lookup swz region pitch w n : ∀ a y x c,
  (∀ y x, (y < n)%nat → (x < w)%nat → (a + pitch * y + 4 * x + 3 ≤ length region)%nat) →
  (y < n)%nat → (x < w)%nat → (c < 3)%nat →
  rows_bytes swz region a pitch w n !! (3 * (y * w + x) + c)%nat
  = region !! (a + pitch * y + 4 * x + channel swz c)%nat.
Proof.
  induction n as [|n IH]; intros a y x c Hr Hy Hx Hc; [lia|]. cbn [rows_bytes].
  assert (Hrow : ∀ x, (x < w)%nat → (a + 4 * x + 3 ≤ length region)%nat).
  { intros x' Hx'. specialize (Hr O x'). lia. }
  destruct y as [|y].
  - rewrite lookup_app_l by (rewrite row_bytes_length by done; lia).
    replace (3 * (0 * w + x) + c)%nat with (3 * x + c)%nat by lia.
    rewrite row_bytes_lookup by done. f_equal. lia.
  - rewrite lookup_app_r by (rewrite row_bytes_length by done; nia).
    rewrite row_bytes_length by done.
    replace (3 * (S y * w + x) + c - 3 * w)%nat with (3 * (y * w + x) + c)%nat by nia.
    rewrite IH; [f_equal; lia| |lia|done|done].
    intros y' x' Hy' Hx'. specialize (Hr (S y') x'). lia.
Qed.

End ReadbackFacts.

Section TransferFacts.

Import Vk Device Tools Screenshot Ppm.

Lemma recordCopy_eq blit src dst width height :
  recordCopy blit src dst width height =
  [ CmdPipelineBarrier dst 0 VK_ACCESS_TRANSFER_WRITE_BIT
      VK_IMAGE_LAYOUT_UNDEFINED VK_IMAGE_LAYOUT_TRANSFER_DST_OPTIMAL
      VK_PIPELINE_STAGE_TRANSFER_BIT VK_PIPELINE_STAGE_TRANSFER_BIT colorRange;
    CmdPipelineBarrier src VK_ACCESS_MEMORY_READ_BIT VK_ACCESS_TRANSFER_READ_BIT
      VK_IMAGE_LAYOUT_PRESENT_SRC_KHR VK_IMAGE_LAYOUT_TRANSFER_SRC_OPTIMAL
      VK_PIPELINE_STAGE_TRANSFER_BIT VK_PIPELINE_STAGE_TRANSFER_BIT colorRange;
    transferCmd blit src dst width height;
    CmdPipelineBarrier dst VK_ACCESS_TRANSFER_WRITE_BIT VK_ACCESS_MEMORY_READ_BIT
      VK_IMAGE_LAYOUT_TRANSFER_DST_OPTIMAL VK_IMAGE_LAYOUT_GENERAL
      VK_PIPELINE_STAGE_TRANSFER_BIT VK_PIPELINE_STAGE_TRANSFER_BIT colorRange;
    CmdPipelineBarrier src VK_ACCESS_TRANSFER_READ_BIT VK_ACCESS_MEMORY_READ_BIT
      VK_IMAGE_LAYOUT_TRANSFER_SRC_OPTIMAL VK_IMAGE_LAYOUT_PRESENT_SRC_KHR
      VK_PIPELINE_STAGE_TRANSFER_BIT VK_PIPELINE_STAGE_TRANSFER_BIT colorRange ].
Proof. destruct blit; reflexivity. Qed.

Lemma exec_transferCmd blit src dst width height (imgs : gmap N ImageState) :
  exec_command (transferCmd blit src dst width height) imgs
  = if in_layout imgs src VK_IMAGE_LAYOUT_TRANSFER_SRC_OPTIMAL
       && in_layout imgs dst VK_IMAGE_LAYOUT_TRANSFER_DST_OPTIMAL
    then Some imgs else None.
Proof. by destruct blit. Qed.

(** Executing the recorded sequence on a device where the staging image
    has just been created. *)
Lemma exec_recordCopy blit src dst width height (imgs : gmap N ImageState) :
  imgs !! dst = None →
  exec_commands (recordCopy blit src dst width height)
    (<[dst := mkImageState VK_IMAGE_LAYOUT_UNDEFINED 0]> imgs)
  = match imgs !! src with
    | Some st =>
        if decide (layout st = VK_IMAGE_LAYOUT_PRESENT_SRC_KHR)
        then Some (<[dst := mkImageState VK_IMAGE_LAYOUT_GENERAL VK_ACCESS_MEMORY_READ_BIT]>
                     (<[src := mkImageState VK_IMAGE_LAYOUT_PRESENT_SRC_KHR
                                 VK_ACCESS_MEMORY_READ_BIT]> imgs))
        else None
    | None => None
    end.
Proof.
  intros Hdst. rewrite recordCopy_eq. cbn [exec_commands exec_command].
  unfold exec_barrier at 1. rewrite lookup_insert_eq, decide_True by (by left).
  rewrite insert_insert_eq.
  unfold exec_barrier at 1.
  destruct (imgs !! src) as [st|] eqn:Hsrc.
  - assert (Hne : dst ≠ src) by congruence.
    rewrite lookup_insert_ne, Hsrc by done.
    destruct (decide (layout st = VK_IMAGE_LAYOUT_PRESENT_SRC_KHR)) as [Hl|Hl].
    + rewrite decide_True by (by right).
      rewrite exec_transferCmd. unfold in_layout.
      rewrite lookup_insert_eq.
      rewrite lookup_insert_ne, lookup_insert_eq by done.
      rewrite !bool_decide_eq_true_2 by done. cbn [andb].
      unfold exec_barrier at 1.
      rewrite lookup_insert_ne, lookup_insert_eq by done.
      rewrite decide_True by (by right).
      unfold exec_barrier.
      rewrite lookup_insert_ne, lookup_insert_eq by done.
      rewrite decide_True by (by right).
      f_equal. apply map_eq. intros i.
      destruct (decide (i = dst)) as [Hi|Hi], (decide (i = src)) as [Hj|Hj];
        subst; by simplify_map_eq.
    + rewrite decide_False; [done|]. intros [Hu|Hp]; [discriminate|congruence].
  - destruct (decide (dst = src)) as [->|Hne].
    + rewrite lookup_insert_eq, decide_False; [done|].
      intros [Hu|Hp]; discriminate.
    + by rewrite lookup_insert_ne, Hsrc.
Qed.

End TransferFacts.

Section SaveFacts.

Import Vk Device Tools Screenshot Ppm.

Lemma header_written file width height :
  Stream.put_string
    (Stream.put_unsigned
       (Stream.put_string
          (Stream.put_unsigned
             (Stream.put_string
                (Stream.put_unsigned (Stream.put_string file ("P6" +:+ Stream.LF)) width)
                Stream.LF)
             height)
          Stream.LF)
       255)
    Stream.LF
  = Stream.put file (header width height).
Proof.
  unfold Stream.put_string, Stream.put_unsigned, Stream.put_string, header, dec.
  rewrite !put_put. by rewrite <- ?app_assoc.
Qed.

Ltac world_simpl :=
  cbv beta iota delta [set_images set_memory set_files set_submitted
                       images memory files submitted].

Lemma save_Ok_iff env queue src fmt width height fn w b w' :
  save env queue src fmt width height fn w = Ok b w' ↔
  device_ok env w src width height ∧
  (fileOpens env fn = true →
     covers (stagingBytes env) (imageSubresourceLayout env) width height) ∧
  b = fileOpens env fn ∧
  w' = after_save env w src fmt width height fn.
Proof.
  unfold save, after_save, mbind, M_bind, mret, M_ret, vkCreateImage, VK_CHECK_RESULT.
  destruct (decide (createImageResult env (imageCreateCI width height) = VK_SUCCESS))
    as [Hc|Hc].
  2: { rewrite decide_False by done. split; [done|]. by intros [[] _]. }
  rewrite Hc. rewrite decide_True by done.
  unfold vkAllocateMemory.
  destruct w as [imgs mems fs subs]. world_simpl.
  set (dst := fresh (dom imgs)). set (mem := fresh (dom mems)).
  assert (Hdst : imgs !! dst = None) by apply not_elem_of_dom, is_fresh.
  assert (Hmem : mems !! mem = None) by apply not_elem_of_dom, is_fresh.
  destruct (decide (allocateMemoryResult env (memAllocInfo env dst) = VK_SUCCESS))
    as [Ha|Ha].
  2: { rewrite decide_False by done. split; [done|]. by intros [[] _]. }
  rewrite Ha. rewrite decide_True by done.
  unfold vkBindImageMemory. world_simpl.
  rewrite !lookup_insert_eq.
  destruct (decide (bindImageMemoryResult env = VK_SUCCESS)) as [Hb|Hb].
  2: { split; [done|]. by intros [[] _]. }
  unfold flushCommandBuffer.
  destruct (decide (submitResult env = VK_SUCCESS)) as [Hs|Hs].
  2: { split; [done|]. by intros [[] _]. }
  world_simpl. cbn [initialLayout imageCreateCI].
  rewrite exec_recordCopy by done.
  destruct (imgs !! src) as [st|] eqn:Hsrc.
  2: { split; [done|]. intros [[_ _ _ _ [st [Hst _]] _] _]. simpl in Hst. congruence. }
  destruct (decide (layout st = VK_IMAGE_LAYOUT_PRESENT_SRC_KHR)) as [Hl|Hl].
  2: { split; [done|]. intros [[_ _ _ _ [st' [Hst Hl']] _] _]. simpl in Hst. congruence. }
  unfold vkMapMemory. world_simpl.
  rewrite lookup_insert_eq.
  destruct (decide (mapMemoryResult env = VK_SUCCESS)) as [Hm|Hm].
  2: { split; [done|]. by intros [[] _]. }
  assert (Hok : device_ok env (mkWorld imgs mems fs subs) src width height).
  { split; try done. by exists st. }
  cbn [or_undefined bytes]. unfold Stream.open.
  world_simpl.
  rewrite insert_insert_eq.
  assert (Himgs :
    delete dst (<[dst := mkImageState VK_IMAGE_LAYOUT_GENERAL VK_ACCESS_MEMORY_READ_BIT]>
      (<[src := mkImageState VK_IMAGE_LAYOUT_PRESENT_SRC_KHR VK_ACCESS_MEMORY_READ_BIT]> imgs))
    = <[src := mkImageState VK_IMAGE_LAYOUT_PRESENT_SRC_KHR VK_ACCESS_MEMORY_READ_BIT]> imgs).
  { rewrite delete_insert_eq. apply delete_id. rewrite lookup_insert_ne; congruence. }
  destruct (fileOpens env fn) eqn:Hopen; cbn [negb Stream.is_open].
  - rewrite header_written. unfold vkGetImageSubresourceLayout.
    unfold ptr_add. cbv beta iota delta [region addr]. rewrite N.add_0_l.
    destruct (row_loop _ _ _ _ _ _) as [file'|] eqn:Hloop; cbn [or_undefined].
    + apply row_loop_iff in Hloop as [Hcov ->].
      unfold Stream.close, vkUnmapMemory, vkFreeMemory, vkDestroyImage.
      world_simpl. rewrite ?lookup_insert_eq. cbn [mapped bytes].
      world_simpl. rewrite ?insert_insert_eq, ?lookup_insert_eq.
      world_simpl. rewrite ?lookup_insert_eq.
      rewrite Himgs, delete_insert_eq, (delete_id mems) by done.
      cbn [Stream.put Stream.path Stream.written app].
      split.
      * intros [= <- <-]. done.
      * intros (_ & _ & -> & ->). done.
    + split; [done|]. intros (_ & Hcov & _). exfalso.
      specialize (Hcov eq_refl).
      apply eq_None_not_Some in Hloop. apply Hloop.
      eexists. apply row_loop_iff. split; [exact Hcov|reflexivity].
  - unfold vkUnmapMemory, vkFreeMemory, vkDestroyImage.
    world_simpl. cbn [mapped bytes].
    rewrite ?lookup_insert_eq. cbn [mapped bytes].
    world_simpl. cbn [mapped bytes].
    rewrite ?insert_insert_eq, ?lookup_insert_eq.
    world_simpl. cbn [mapped bytes].
    rewrite ?lookup_insert_eq.
    rewrite Himgs, delete_insert_eq, (delete_id mems) by done.
    split.
    + intros [= <- <-]. done.
    + intros (_ & _ & -> & ->). done.
Qed.

End SaveFacts.

Section CaptureFacts.

Import Vk Device Tools Screenshot Ppm.

Lemma payload_length env fmt width height :
  covers (stagingBytes env) (imageSubresourceLayout env) width height →
  length (payload env fmt width height)
  = (N.to_nat width * N.to_nat height * 3)%nat.
Proof.
  intros Hcov. unfold payload. rewrite rows_bytes_length; [lia|exact Hcov].
Qed.

Lemma payload_lookup env fmt width height y x c :
  covers (stagingBytes env) (imageSubresourceLayout env) width height →
  (y < N.to_nat height)%nat → (x < N.to_nat width)%nat → (c < 3)%nat →
  out_byte (payload env fmt width height) width y x c
  = in_byte env y x (channel (colorSwizzle (supportsBlit env fmt) fmt) c).
Proof.
  intros Hcov Hy Hx Hc. unfold out_byte, in_byte, payload.
  by rewrite rows_bytes_lookup.
Qed.

Lemma in_byte_is_Some env width height y x k :
  covers (stagingBytes env) (imageSubresourceLayout env) width height →
  (y < N.to_nat height)%nat → (x < N.to_nat width)%nat → (k < 3)%nat →
  is_Some (in_byte env y x k).
Proof.
  intros Hcov Hy Hx Hk. apply lookup_lt_is_Some. specialize (Hcov y x Hy Hx). lia.
Qed.

(** What a capture that returns [true] has done. *)
Lemma save_true_inv env queue src fmt width height fn w w' :
  save env queue src fmt width height fn w = Ok true w' →
  device_ok env w src width height ∧
  covers (stagingBytes env) (imageSubresourceLayout env) width height ∧
  fileOpens env fn = true ∧
  files w' !! fn = Some (header width height ++ payload env fmt width height) ∧
  w' = after_save env w src fmt width height fn.
Proof.
  intros (Hok & Hcov & Hopen & ->)%save_Ok_iff. symmetry in Hopen.
  split; [done|]. split; [by apply Hcov|]. split; [done|]. split; [|done].
  unfold after_save. cbn [files]. rewrite Hopen. apply lookup_insert_eq.
Qed.

Lemma colorSwizzle_iff blit fmt :
  colorSwizzle blit fmt = true ↔
  blit = false ∧
  (fmt = VK_FORMAT_B8G8R8A8_SRGB ∨ fmt = VK_FORMAT_B8G8R8A8_UNORM
   ∨ fmt = VK_FORMAT_B8G8R8A8_SNORM).
Proof.
  unfold colorSwizzle. destruct blit; cbn [negb].
  - split; [done|]. by intros [? _].
  - cbn [std_find length].
    destruct (N.eqb_spec VK_FORMAT_B8G8R8A8_SRGB fmt) as [<-|H1].
    { cbn. split; [intros _|done]. split; [done|]. by left. }
    destruct (N.eqb_spec VK_FORMAT_B8G8R8A8_UNORM fmt) as [<-|H2].
    { cbn. split; [intros _|done]. split; [done|]. right. by left. }
    destruct (N.eqb_spec VK_FORMAT_B8G8R8A8_SNORM fmt) as [<-|H3].
    { cbn. split; [intros _|done]. split; [done|]. right. by right. }
    cbn. split; [done|]. intros [_ [?|[?|?]]]; congruence.
Qed.

Lemma parse_dec_dec n : parse_dec (dec n) = Some n.
Proof.
  unfold parse_dec, dec. rewrite string_of_list_byte_of_string.
  rewrite NilZero.usu.
  - cbn [option_map]. by rewrite DecimalN.Unsigned.of_to.
  - destruct n as [|p]; [done|]. apply DecimalPos.Unsigned.to_uint_nonnil.
Qed.

(** Contents of the mapped range that no pixel read touches do not matter
    to the bytes that go out. *)
Lemma pixel_ext swz r1 r2 a :
  (a + 3 ≤ length r1)%nat →
  (∀ k, (k < 3)%nat → r2 !! (a + k)%nat = r1 !! (a + k)%nat) →
  pixel swz r2 a = pixel swz r1 a.
Proof.
  intros Hle Hag.
  assert (Hle2 : (a + 3 ≤ length r2)%nat).
  { destruct (lookup_lt_is_Some_2 r1 (a + 2)) as [b Hb]; [lia|].
    rewrite <- Hag in Hb by lia. apply lookup_lt_Some in Hb. lia. }
  apply list_eq. intros i. destruct (decide (i < 3)%nat) as [Hi|Hi].
  - rewrite !pixel_lookup by done. apply Hag. unfold channel. destruct swz; lia.
  - rewrite !lookup_ge_None_2; [done|rewrite pixel_length by done; lia..].
Qed.

Lemma row_bytes_ext swz r1 r2 n : ∀ a,
  (∀ x, (x < n)%nat → (a + 4 * x + 3 ≤ length r1)%nat) →
  (∀ x k, (x < n)%nat → (k < 3)%nat →
     r2 !! (a + 4 * x + k)%nat = r1 !! (a + 4 * x + k)%nat) →
  row_bytes swz r2 a n = row_bytes swz r1 a n.
Proof.
  induction n as [|n IH]; intros a Hr Hag; cbn [row_bytes]; [done|]. f_equal.
  - apply pixel_ext; [specialize (Hr O); lia|].
    intros k Hk. specialize (Hag O k). rewrite <- !Nat.add_assoc in Hag.
    cbn [Nat.mul Nat.add] in Hag. apply Hag; lia.
  - apply IH.
    + intros x Hx. specialize (Hr (S x)). lia.
    + intros x k Hx Hk. specialize (Hag (S x) k).
      replace (a + 4 + 4 * x + k)%nat with (a + 4 * S x + k)%nat by lia.
      apply Hag; lia.
Qed.

Lemma rows_bytes_ext swz r1 r2 pitch w n : ∀ a,
  (∀ y x, (y < n)%nat → (x < w)%nat → (a + pitch * y + 4 * x + 3 ≤ length r1)%nat) →
  (∀ y x k, (y < n)%nat → (x < w)%nat → (k < 3)%nat →
     r2 !! (a + pitch * y + 4 * x + k)%nat = r1 !! (a + pitch * y + 4 * x + k)%nat) →
  rows_bytes swz r2 a pitch w n = rows_bytes swz r1 a pitch w n.
Proof.
  induction n as [|n IH]; intros a Hr Hag; cbn [rows_bytes]; [done|]. f_equal.
  - apply row_bytes_ext.
    + intros x Hx. specialize (Hr O x). lia.
    + intros x k Hx Hk. specialize (Hag O x k).
      replace (a + 4 * x + k)%nat with (a + pitch * 0 + 4 * x + k)%nat by lia.
      apply Hag; lia.
  - apply IH.
    + intros y x Hy Hx. specialize (Hr (S y) x). lia.
    + intros y x k Hy Hx Hk. specialize (Hag (S y) x k).
      replace (a + pitch + pitch * y + 4 * x + k)%nat
        with (a + pitch * S y + 4 * x + k)%nat by lia.
      apply Hag; lia.
Qed.

Lemma covers_ext r1 r2 sl width height :
  covers r1 sl width height →
  (∀ y x k, (y < N.to_nat height)%nat → (x < N.to_nat width)%nat → (k < 3)%nat →
     r2 !! (pixel_addr sl y x + k)%nat = r1 !! (pixel_addr sl y x + k)%nat) →
  covers r2 sl width height.
Proof.
  intros Hcov Hag y x Hy Hx.
  destruct (lookup_lt_is_Some_2 r1 (pixel_addr sl y x + 2)) as [b Hb].
  { specialize (Hcov y x Hy Hx). lia. }
  rewrite <- Hag in Hb by (done || lia). apply lookup_lt_Some in Hb. lia.
Qed.

End CaptureFacts.

Section CaptureClaims.

Import Vk Device Tools Screenshot Ppm Examples.

(** The worlds before and after a returning capture have the same live
    images and allocations: the staging image and its memory are gone. *)
Lemma after_save_resources env w src fmt width height fn :
  presentable w src →
  let w' := after_save env w src fmt width height fn in
  dom (images w') = dom (images w) ∧ memory w' = memory w ∧
  images w' !! fresh (dom (images w)) = None ∧
  memory w' !! fresh (dom (memory w)) = None.
Proof.
  intros (st & Hst & _). unfold after_save. cbv zeta. cbn [images memory].
  pose proof (is_fresh (dom (images w))) as Hf. apply not_elem_of_dom in Hf.
  split; [|split; [done|split]].
  - by apply dom_insert_lookup_L.
  - rewrite lookup_insert_ne; [done|]. intros Heq. rewrite <- Heq in Hf. congruence.
  - apply not_elem_of_dom, is_fresh.
Qed.

Lemma pixel_not_padding sl width height y x k :
  (4 * N.to_nat width < N.to_nat (rowPitch sl))%nat →
  (x < N.to_nat width)%nat → (k < 4)%nat →
  ¬ in_row_padding sl width height (pixel_addr sl y x + k).
Proof.
  intros Hp Hx Hk (y' & _ & Hlo & Hhi). unfold pixel_addr in *.
  assert (y' < y ∨ y' = y ∨ y < y')%nat as [Hlt|[->|Hgt]] by lia; nia.
Qed.

(** C1.  In every capture that writes its file: on the fallback path (no
    blit support) the swizzle flag is set exactly for the three BGR
    formats, on the accelerated path it is never set; the payload has
    three bytes per pixel, and with [b0 b1 b2] the first three bytes of
    the source pixel at a row and column, the output pixel there is
    [b2 b1 b0] when the flag is set and [b0 b1 b2] when it is not.  The
    fourth byte of a source pixel is not part of the output. *)
Theorem channel_order env queue src fmt width height fn w w' :
  save env queue src fmt width height fn w = Ok true w' →
  (supportsBlit env fmt = false →
     (colorSwizzle (supportsBlit env fmt) fmt = true ↔
      fmt = VK_FORMAT_B8G8R8A8_SRGB ∨ fmt = VK_FORMAT_B8G8R8A8_UNORM
      ∨ fmt = VK_FORMAT_B8G8R8A8_SNORM)) ∧
  (supportsBlit env fmt = true → colorSwizzle (supportsBlit env fmt) fmt = false) ∧
  ∃ pixels : list byte,
    files w' !! fn = Some (header width height ++ pixels) ∧
    length pixels = (N.to_nat width * N.to_nat height * 3)%nat ∧
    ∀ y x : nat, (y < N.to_nat height)%nat → (x < N.to_nat width)%nat →
      ∃ b0 b1 b2 : byte,
        in_byte env y x 0 = Some b0 ∧
        in_byte env y x 1 = Some b1 ∧
        in_byte env y x 2 = Some b2 ∧
        out_byte pixels width y x 0
          = Some (if colorSwizzle (supportsBlit env fmt) fmt then b2 else b0) ∧
        out_byte pixels width y x 1 = Some b1 ∧
        out_byte pixels width y x 2
          = Some (if colorSwizzle (supportsBlit env fmt) fmt then b0 else b2).
Proof.
  intros (Hok & Hcov & Hopen & Hfile & _)%save_true_inv.
  split; [|split].
  - intros Hb. rewrite colorSwizzle_iff. rewrite Hb. split; [by intros [_ ?]|done].
  - intros Hb. rewrite Hb. reflexivity.
  - exists (payload env fmt width height).
    split; [done|]. split; [by apply payload_length|].
    intros y x Hy Hx.
    destruct (in_byte_is_Some env width height y x 0) as [b0 H0]; [done..|lia|].
    destruct (in_byte_is_Some env width height y x 1) as [b1 H1]; [done..|lia|].
    destruct (in_byte_is_Some env width height y x 2) as [b2 H2]; [done..|lia|].
    exists b0, b1, b2. rewrite !payload_lookup by (done || lia).
    unfold channel. destruct (colorSwizzle _ _); cbn [Nat.sub]; done.
Qed.

Lemma channel_order_witness :
  (supportsBlit env0 VK_FORMAT_B8G8R8A8_UNORM = false →
     (colorSwizzle (supportsBlit env0 VK_FORMAT_B8G8R8A8_UNORM) VK_FORMAT_B8G8R8A8_UNORM = true ↔
      VK_FORMAT_B8G8R8A8_UNORM = VK_FORMAT_B8G8R8A8_SRGB
      ∨ VK_FORMAT_B8G8R8A8_UNORM = VK_FORMAT_B8G8R8A8_UNORM
      ∨ VK_FORMAT_B8G8R8A8_UNORM = VK_FORMAT_B8G8R8A8_SNORM)) ∧
  (supportsBlit env0 VK_FORMAT_B8G8R8A8_UNORM = true →
     colorSwizzle (supportsBlit env0 VK_FORMAT_B8G8R8A8_UNORM) VK_FORMAT_B8G8R8A8_UNORM = false) ∧
  ∃ pixels : list byte,
    files (after_save env0 w0 7 VK_FORMAT_B8G8R8A8_UNORM 2 2 shot) !! shot
      = Some (header 2 2 ++ pixels) ∧
    length pixels = (N.to_nat 2 * N.to_nat 2 * 3)%nat ∧
    ∀ y x : nat, (y < N.to_nat 2)%nat → (x < N.to_nat 2)%nat →
      ∃ b0 b1 b2 : byte,
        in_byte env0 y x 0 = Some b0 ∧
        in_byte env0 y x 1 = Some b1 ∧
        in_byte env0 y x 2 = Some b2 ∧
        out_byte pixels 2 y x 0
          = Some (if colorSwizzle (supportsBlit env0 VK_FORMAT_B8G8R8A8_UNORM)
                       VK_FORMAT_B8G8R8A8_UNORM then b2 else b0) ∧
        out_byte pixels 2 y x 1 = Some b1 ∧
        out_byte pixels 2 y x 2
          = Some (if colorSwizzle (supportsBlit env0 VK_FORMAT_B8G8R8A8_UNORM)
                       VK_FORMAT_B8G8R8A8_UNORM then b0 else b2).
Proof.
  apply (channel_order env0 1 7 VK_FORMAT_B8G8R8A8_UNORM 2 2 shot w0).
  vm_compute. reflexivity.
Defined.

(** C2.  A capture of a [width] by [height] image, both positive, that
    returns [true] leaves a file made of the token [P6], the requested
    width, the requested height and the largest sample value 255, each
    followed by a line feed, and then exactly [width * height * 3] bytes:
    the pixels of staging row 0 first, then those of row 1, and so on,
    three bytes per pixel.  The decimal fields read back as the requested
    numbers. *)
Theorem pixmap_layout env queue src fmt width height fn w w' :
  (0 < width)%N → (0 < height)%N →
  save env queue src fmt width height fn w = Ok true w' →
  ∃ pixels : list byte,
    files w' !! fn
      = Some (list_byte_of_string ("P6" +:+ Stream.LF)
              ++ dec width ++ list_byte_of_string Stream.LF
              ++ dec height ++ list_byte_of_string Stream.LF
              ++ dec 255 ++ list_byte_of_string Stream.LF
              ++ pixels) ∧
    parse_dec (dec width) = Some width ∧
    parse_dec (dec height) = Some height ∧
    dec 255 = list_byte_of_string "255" ∧
    N.of_nat (length pixels) = (width * height * 3)%N ∧
    ∀ y x c : nat, (y < N.to_nat height)%nat → (x < N.to_nat width)%nat → (c < 3)%nat →
      is_Some (out_byte pixels width y x c) ∧
      out_byte pixels width y x c
        = in_byte env y x (channel (colorSwizzle (supportsBlit env fmt) fmt) c).
Proof.
  intros _ _ (Hok & Hcov & Hopen & Hfile & _)%save_true_inv.
  exists (payload env fmt width height).
  split. { rewrite Hfile. unfold header. by rewrite <- !app_assoc. }
  split; [apply parse_dec_dec|]. split; [apply parse_dec_dec|].
  split; [reflexivity|]. split; [rewrite payload_length by done; lia|].
  intros y x c Hy Hx Hc. rewrite payload_lookup by done. split; [|done].
  apply (in_byte_is_Some env width height); try done.
  unfold channel. destruct (colorSwizzle _ _); lia.
Qed.

Lemma pixmap_layout_witness :
  ∃ pixels : list byte,
    files (after_save env0 w0 7 VK_FORMAT_R8G8B8A8_UNORM 2 2 shot) !! shot
      = Some (list_byte_of_string ("P6" +:+ Stream.LF)
              ++ dec 2 ++ list_byte_of_string Stream.LF
              ++ dec 2 ++ list_byte_of_string Stream.LF
              ++ dec 255 ++ list_byte_of_string Stream.LF
              ++ pixels) ∧
    parse_dec (dec 2) = Some 2%N ∧
    parse_dec (dec 2) = Some 2%N ∧
    dec 255 = list_byte_of_string "255" ∧
    N.of_nat (length pixels) = (2 * 2 * 3)%N ∧
    ∀ y x c : nat, (y < N.to_nat 2)%nat → (x < N.to_nat 2)%nat → (c < 3)%nat →
      is_Some (out_byte pixels 2 y x c) ∧
      out_byte pixels 2 y x c
        = in_byte env0 y x
            (channel (colorSwizzle (supportsBlit env0 VK_FORMAT_R8G8B8A8_UNORM)
                        VK_FORMAT_R8G8B8A8_UNORM) c).
Proof.
  apply (pixmap_layout env0 1 7 VK_FORMAT_R8G8B8A8_UNORM 2 2 shot w0).
  - reflexivity.
  - reflexivity.
  - vm_compute. reflexivity.
Defined.

(** C3.  When the reported row pitch is larger than [4 * width], a
    capture that returns [true] has written [height] rows of exactly
    [3 * width] bytes; each byte of output row [y] is read from one of the
    first [4 * width] bytes of staging row [y], which starts [rowPitch]
    bytes after row [y - 1], and never from the padding behind them.
    The padding does not reach the file: with any other bytes in the
    padding the capture ends in the same world. *)
Theorem stride_independence env queue src fmt width height fn w w' :
  (4 * width < rowPitch (imageSubresourceLayout env))%N →
  save env queue src fmt width height fn w = Ok true w' →
  (∃ pixels : list byte,
     files w' !! fn = Some (header width height ++ pixels) ∧
     length pixels = (N.to_nat height * (3 * N.to_nat width))%nat ∧
     ∀ y x c : nat, (y < N.to_nat height)%nat → (x < N.to_nat width)%nat → (c < 3)%nat →
       ∃ a : nat,
         (N.to_nat (offset (imageSubresourceLayout env))
          + N.to_nat (rowPitch (imageSubresourceLayout env)) * y ≤ a
          < N.to_nat (offset (imageSubresourceLayout env))
            + N.to_nat (rowPitch (imageSubresourceLayout env)) * y
            + 4 * N.to_nat width)%nat ∧
         ¬ in_row_padding (imageSubresourceLayout env) width height a ∧
         is_Some (stagingBytes env !! a) ∧
         pixels !! (y * (3 * N.to_nat width) + (3 * x + c))%nat = stagingBytes env !! a) ∧
  ∀ bs : list byte,
    (∀ a : nat, ¬ in_row_padding (imageSubresourceLayout env) width height a →
       bs !! a = stagingBytes env !! a) →
    save (set_stagingBytes bs env) queue src fmt width height fn w = Ok true w'.
Proof.
  intros Hpitch Hsave.
  pose proof Hsave as (Hok & Hcov & Hopen & Hfile & Hw')%save_true_inv.
  assert (Hp : (4 * N.to_nat width < N.to_nat (rowPitch (imageSubresourceLayout env)))%nat)
    by lia.
  split.
  - exists (payload env fmt width height).
    split; [done|]. split; [rewrite payload_length by done; lia|].
    intros y x c Hy Hx Hc.
    set (k := channel (colorSwizzle (supportsBlit env fmt) fmt) c).
    assert (Hk : (k < 3)%nat) by (unfold k, channel; destruct (colorSwizzle _ _); lia).
    exists (pixel_addr (imageSubresourceLayout env) y x + k)%nat.
    split; [unfold pixel_addr; lia|].
    split; [apply pixel_not_padding; (done || lia)|].
    split; [by apply (in_byte_is_Some env width height)|].
    replace (y * (3 * N.to_nat width) + (3 * x + c))%nat
      with (3 * (y * N.to_nat width + x) + c)%nat by lia.
    by apply (payload_lookup env fmt width height y x c).
  - intros bs Hag. apply save_Ok_iff.
    assert (Hpix : ∀ y x k : nat,
      (y < N.to_nat height)%nat → (x < N.to_nat width)%nat → (k < 3)%nat →
      bs !! (pixel_addr (imageSubresourceLayout env) y x + k)%nat
      = stagingBytes env !! (pixel_addr (imageSubresourceLayout env) y x + k)%nat).
    { intros y x k Hy Hx Hk. apply Hag, pixel_not_padding; (done || lia). }
    split; [destruct Hok; by split|]. split.
    { intros _. by apply (covers_ext (stagingBytes env)). }
    split; [symmetry; exact Hopen|].
    rewrite Hw'. unfold after_save, set_stagingBytes. cbn [fileOpens].
    rewrite Hopen. do 3 f_equal. unfold payload.
    cbn [stagingBytes imageSubresourceLayout]. symmetry.
    change (supportsBlit (mkEnv _ _ _ _ _ _ _ _ _ _ _) fmt) with (supportsBlit env fmt).
    apply rows_bytes_ext; [exact Hcov|].
    intros y x k Hy Hx Hk. by apply Hpix.
Qed.

Lemma stride_independence_witness :
  save (set_stagingBytes repadded env0) 1 7 VK_FORMAT_B8G8R8A8_SRGB 2 2 shot w0
  = Ok true (after_save env0 w0 7 VK_FORMAT_B8G8R8A8_SRGB 2 2 shot).
Proof.
  apply (stride_independence env0 1 7 VK_FORMAT_B8G8R8A8_SRGB 2 2 shot w0).
  - reflexivity.
  - vm_compute. reflexivity.
  - intros a Hpad. destruct (decide (a < 32)%nat) as [Hlt|Hge].
    + do 32 (destruct a as [|a];
        [first [reflexivity
               | exfalso; apply Hpad; exists 0%nat; vm_compute; lia
               | exfalso; apply Hpad; exists 1%nat; vm_compute; lia]|]).
      lia.
    + rewrite !lookup_ge_None_2; [done|vm_compute; lia..].
Defined.

(** C4.  The capability decision is [true] exactly when the source format
    reports the blit-source feature for optimal tiling and
    [R8G8B8A8_UNORM] reports the blit-destination feature for linear
    tiling.  A capture that returns has submitted one command buffer; when
    both queries hold, its only transfer is a blit of the full rectangle
    from the source image to the staging image with nearest filtering, and
    when either fails its only transfer is a raw copy of the full
    rectangle. *)
Theorem capability_decision env queue src fmt width height fn w b w' :
  save env queue src fmt width height fn w = Ok b w' →
  (supportsBlit env fmt = true ↔
     N.land (optimalTilingFeatures (formatProperties env fmt))
       VK_FORMAT_FEATURE_BLIT_SRC_BIT ≠ 0%N ∧
     N.land (linearTilingFeatures (formatProperties env VK_FORMAT_R8G8B8A8_UNORM))
       VK_FORMAT_FEATURE_BLIT_DST_BIT ≠ 0%N) ∧
  ∃ cmds : VkCommandBuffer,
    submitted w' = submitted w ++ [cmds] ∧
    (N.land (optimalTilingFeatures (formatProperties env fmt))
       VK_FORMAT_FEATURE_BLIT_SRC_BIT ≠ 0%N ∧
     N.land (linearTilingFeatures (formatProperties env VK_FORMAT_R8G8B8A8_UNORM))
       VK_FORMAT_FEATURE_BLIT_DST_BIT ≠ 0%N →
     filter (λ c, is_blit c || is_copy c = true) cmds
     = [CmdBlitImage src VK_IMAGE_LAYOUT_TRANSFER_SRC_OPTIMAL
          (fresh (dom (images w))) VK_IMAGE_LAYOUT_TRANSFER_DST_OPTIMAL
          [mkImageBlit (mkSubresourceLayers VK_IMAGE_ASPECT_COLOR_BIT 0 0 1)
             (mkOffset3D 0 0 0)
             (mkOffset3D (to_int32 (Z.of_N width)) (to_int32 (Z.of_N height)) 1)
             (mkSubresourceLayers VK_IMAGE_ASPECT_COLOR_BIT 0 0 1)
             (mkOffset3D 0 0 0)
             (mkOffset3D (to_int32 (Z.of_N width)) (to_int32 (Z.of_N height)) 1)]
          VK_FILTER_NEAREST]) ∧
    (¬ (N.land (optimalTilingFeatures (formatProperties env fmt))
          VK_FORMAT_FEATURE_BLIT_SRC_BIT ≠ 0%N ∧
        N.land (linearTilingFeatures (formatProperties env VK_FORMAT_R8G8B8A8_UNORM))
          VK_FORMAT_FEATURE_BLIT_DST_BIT ≠ 0%N) →
     filter (λ c, is_blit c || is_copy c = true) cmds
     = [CmdCopyImage src VK_IMAGE_LAYOUT_TRANSFER_SRC_OPTIMAL
          (fresh (dom (images w))) VK_IMAGE_LAYOUT_TRANSFER_DST_OPTIMAL
          [mkImageCopy (mkSubresourceLayers VK_IMAGE_ASPECT_COLOR_BIT 0 0 1)
             (mkOffset3D 0 0 0)
             (mkSubresourceLayers VK_IMAGE_ASPECT_COLOR_BIT 0 0 1)
             (mkOffset3D 0 0 0)
             (mkExtent3D width height 1)]]).
Proof.
  intros (_ & _ & _ & ->)%save_Ok_iff.
  assert (Hiff : supportsBlit env fmt = true ↔
     N.land (optimalTilingFeatures (formatProperties env fmt))
       VK_FORMAT_FEATURE_BLIT_SRC_BIT ≠ 0%N ∧
     N.land (linearTilingFeatures (formatProperties env VK_FORMAT_R8G8B8A8_UNORM))
       VK_FORMAT_FEATURE_BLIT_DST_BIT ≠ 0%N).
  { unfold supportsBlit, vkGetPhysicalDeviceFormatProperties.
    destruct (N.eqb_spec
      (N.land (optimalTilingFeatures (formatProperties env fmt))
         VK_FORMAT_FEATURE_BLIT_SRC_BIT) 0) as [Hs|Hs];
    destruct (N.eqb_spec
      (N.land (linearTilingFeatures (formatProperties env VK_FORMAT_R8G8B8A8_UNORM))
         VK_FORMAT_FEATURE_BLIT_DST_BIT) 0) as [Hd|Hd];
    split; try done; intros [? ?]; done. }
  split; [exact Hiff|].
  exists (recordCopy (supportsBlit env fmt) src (fresh (dom (images w))) width height).
  split; [reflexivity|]. split.
  - intros Hboth. apply Hiff in Hboth. rewrite Hboth. reflexivity.
  - intros Hnot. destruct (supportsBlit env fmt) eqn:Hb; [|reflexivity].
    exfalso. apply Hnot, Hiff. reflexivity.
Qed.

Lemma capability_decision_witness :
  (supportsBlit env_blit VK_FORMAT_B8G8R8A8_UNORM = true ↔
     N.land (optimalTilingFeatures (formatProperties env_blit VK_FORMAT_B8G8R8A8_UNORM))
       VK_FORMAT_FEATURE_BLIT_SRC_BIT ≠ 0%N ∧
     N.land (linearTilingFeatures (formatProperties env_blit VK_FORMAT_R8G8B8A8_UNORM))
       VK_FORMAT_FEATURE_BLIT_DST_BIT ≠ 0%N) ∧
  ∃ cmds : VkCommandBuffer,
    submitted (after_save env_blit w0 7 VK_FORMAT_B8G8R8A8_UNORM 2 2 shot)
      = submitted w0 ++ [cmds] ∧
    (N.land (optimalTilingFeatures (formatProperties env_blit VK_FORMAT_B8G8R8A8_UNORM))
       VK_FORMAT_FEATURE_BLIT_SRC_BIT ≠ 0%N ∧
     N.land (linearTilingFeatures (formatProperties env_blit VK_FORMAT_R8G8B8A8_UNORM))
       VK_FORMAT_FEATURE_BLIT_DST_BIT ≠ 0%N →
     filter (λ c, is_blit c || is_copy c = true) cmds
     = [CmdBlitImage 7 VK_IMAGE_LAYOUT_TRANSFER_SRC_OPTIMAL
          (fresh (dom (images w0))) VK_IMAGE_LAYOUT_TRANSFER_DST_OPTIMAL
          [mkImageBlit (mkSubresourceLayers VK_IMAGE_ASPECT_COLOR_BIT 0 0 1)
             (mkOffset3D 0 0 0)
             (mkOffset3D (to_int32 (Z.of_N 2)) (to_int32 (Z.of_N 2)) 1)
             (mkSubresourceLayers VK_IMAGE_ASPECT_COLOR_BIT 0 0 1)
             (mkOffset3D 0 0 0)
             (mkOffset3D (to_int32 (Z.of_N 2)) (to_int32 (Z.of_N 2)) 1)]
          VK_FILTER_NEAREST]) ∧
    (¬ (N.land (optimalTilingFeatures (formatProperties env_blit VK_FORMAT_B8G8R8A8_UNORM))
          VK_FORMAT_FEATURE_BLIT_SRC_BIT ≠ 0%N ∧
        N.land (linearTilingFeatures (formatProperties env_blit VK_FORMAT_R8G8B8A8_UNORM))
          VK_FORMAT_FEATURE_BLIT_DST_BIT ≠ 0%N) →
     filter (λ c, is_blit c || is_copy c = true) cmds
     = [CmdCopyImage 7 VK_IMAGE_LAYOUT_TRANSFER_SRC_OPTIMAL
          (fresh (dom (images w0))) VK_IMAGE_LAYOUT_TRANSFER_DST_OPTIMAL
          [mkImageCopy (mkSubresourceLayers VK_IMAGE_ASPECT_COLOR_BIT 0 0 1)
             (mkOffset3D 0 0 0)
             (mkSubresourceLayers VK_IMAGE_ASPECT_COLOR_BIT 0 0 1)
             (mkOffset3D 0 0 0)
             (mkExtent3D 2 2 1)]]).
Proof.
  apply (capability_decision env_blit 1 7 VK_FORMAT_B8G8R8A8_UNORM 2 2 shot w0 true).
  vm_compute. reflexivity.
Defined.




(** C6.  Whatever a capture returns, [true] or [false], the staging image
    and the staging allocation it created are not alive afterwards, and
    the device has the live images and the allocations it had before. *)
Theorem staging_released env queue src fmt width height fn w b w' :
  save env queue src fmt width height fn w = Ok b w' →
  images w' !! fresh (dom (images w)) = None ∧
  memory w' !! fresh (dom (memory w)) = None ∧
  dom (images w') = dom (images w) ∧
  memory w' = memory w.
Proof.
  intros ([_ _ _ _ Hsrc _] & _ & _ & ->)%save_Ok_iff.
  destruct (after_save_resources env w src fmt width height fn Hsrc)
    as (Hdom & Hmem & Hi & Hm).
  done.
Qed.

Lemma staging_released_witness :
  images (after_save env_closed w0 7 VK_FORMAT_B8G8R8A8_UNORM 2 2 shot)
    !! fresh (dom (images w0)) = None ∧
  memory (after_save env_closed w0 7 VK_FORMAT_B8G8R8A8_UNORM 2 2 shot)
    !! fresh (dom (memory w0)) = None ∧
  dom (images (after_save env_closed w0 7 VK_FORMAT_B8G8R8A8_UNORM 2 2 shot))
    = dom (images w0) ∧
  memory (after_save env_closed w0 7 VK_FORMAT_B8G8R8A8_UNORM 2 2 shot) = memory w0.
Proof.
  apply (staging_released env_closed 1 7 VK_FORMAT_B8G8R8A8_UNORM 2 2 shot w0 false).
  vm_compute. reflexivity.
Defined.

(** C7.  When every device operation succeeds (and the mapped range holds
    the pixels that are read), the capture returns, and it returns [false]
    exactly when the file cannot be opened.  In that case no file is
    touched and the staging image and allocation are released; in the
    other case it returns [true]. *)
Theorem open_failure env queue src fmt width height fn w :
  device_ok env w src width height →
  (fileOpens env fn = true →
     covers (stagingBytes env) (imageSubresourceLayout env) width height) →
  ∃ b w',
    save env queue src fmt width height fn w = Ok b w' ∧
    (b = false ↔ fileOpens env fn = false) ∧
    (b = true ↔ fileOpens env fn = true) ∧
    (b = false →
       files w' = files w ∧
       images w' !! fresh (dom (images w)) = None ∧
       memory w' !! fresh (dom (memory w)) = None ∧
       dom (images w') = dom (images w) ∧
       memory w' = memory w).
Proof.
  intros Hok Hcov.
  exists (fileOpens env fn), (after_save env w src fmt width height fn).
  split; [by apply save_Ok_iff|]. split; [done|]. split; [done|].
  intros Hopen.
  destruct (after_save_resources env w src fmt width height fn (ok_source _ _ _ _ _ Hok))
    as (Hdom & Hmem & Hi & Hm).
  split; [|done]. unfold after_save. cbn [files]. by rewrite Hopen.
Qed.

Lemma open_failure_witness :
  ∃ b w',
    save env_closed 1 7 VK_FORMAT_B8G8R8A8_UNORM 2 2 shot w0 = Ok b w' ∧
    (b = false ↔ fileOpens env_closed shot = false) ∧
    (b = true ↔ fileOpens env_closed shot = true) ∧
    (b = false →
       files w' = files w0 ∧
       images w' !! fresh (dom (images w0)) = None ∧
       memory w' !! fresh (dom (memory w0)) = None ∧
       dom (images w') = dom (images w0) ∧
       memory w' = memory w0).
Proof.
  apply (open_failure env_closed 1 7 VK_FORMAT_B8G8R8A8_UNORM 2 2 shot w0).
  - split; try (vm_compute; reflexivity).
    eexists. split; vm_compute; reflexivity.
  - vm_compute. discriminate.
Defined.

(** C8.  Two captures in succession with the same arguments, told the same
    format capabilities and staging layout, and whose transfers deliver
    the same bytes for every pixel, both returning [true]: the file after
    the second capture is byte for byte the file after the first.  Other
    bytes of the mapped ranges, handles and memory requirements play no
    part. *)
Theorem capture_deterministic env1 env2 queue src fmt width height fn w0 w1 w2 :
  same_reports env1 env2 →
  same_pixels env1 env2 width height →
  save env1 queue src fmt width height fn w0 = Ok true w1 →
  save env2 queue src fmt width height fn w1 = Ok true w2 →
  is_Some (files w1 !! fn) ∧ files w2 !! fn = files w1 !! fn.
Proof.
  intros [Hfp Hsl] Hpx (_ & Hcov1 & _ & Hf1 & _)%save_true_inv
    (_ & Hcov2 & _ & Hf2 & _)%save_true_inv.
  split; [by rewrite Hf1|]. rewrite Hf1, Hf2. do 2 f_equal.
  assert (Hblit : supportsBlit env2 fmt = supportsBlit env1 fmt).
  { unfold supportsBlit, vkGetPhysicalDeviceFormatProperties. by rewrite !Hfp. }
  unfold payload. rewrite Hblit, <- Hsl.
  apply rows_bytes_ext; [exact Hcov1|].
  intros y x k Hy Hx Hk. symmetry.
  specialize (Hpx y x k Hy Hx ltac:(lia)). unfold in_byte in Hpx.
  rewrite <- Hsl in Hpx. exact Hpx.
Qed.

Lemma capture_deterministic_witness :
  is_Some (files (after_save env0 w0 7 VK_FORMAT_B8G8R8A8_SNORM 2 2 shot) !! shot) ∧
  files (after_save (set_stagingBytes repadded env0)
           (after_save env0 w0 7 VK_FORMAT_B8G8R8A8_SNORM 2 2 shot)
           7 VK_FORMAT_B8G8R8A8_SNORM 2 2 shot) !! shot
  = files (after_save env0 w0 7 VK_FORMAT_B8G8R8A8_SNORM 2 2 shot) !! shot.
Proof.
  apply (capture_deterministic env0 (set_stagingBytes repadded env0) 1 7
           VK_FORMAT_B8G8R8A8_SNORM 2 2 shot w0).
  - split; [intros fmt|]; reflexivity.
  - intros y x k Hy Hx Hk.
    destruct y as [|[|y]]; [| |vm_compute in Hy; lia];
      (destruct x as [|[|x]]; [| |vm_compute in Hx; lia]);
      (destruct k as [|[|[|[|k]]]]; [| | | |lia]); reflexivity.
  - vm_compute. reflexivity.
  - vm_compute. reflexivity.
Defined.

(** Both ways out of a capture, run on a 2x2 image. *)
Example save_writes_swizzled :
  files (after_save env0 w0 7 VK_FORMAT_B8G8R8A8_UNORM 2 2 shot) !! shot
  = Some (list_byte_of_string ("P6" +:+ Stream.LF +:+ "2" +:+ Stream.LF +:+ "2"
                               +:+ Stream.LF +:+ "255" +:+ Stream.LF)
          ++ [x06; x05; x04; x0a; x09; x08; x12; x11; x10; x16; x15; x14])
  ∧ save env0 1 7 VK_FORMAT_B8G8R8A8_UNORM 2 2 shot w0
    = Ok true (after_save env0 w0 7 VK_FORMAT_B8G8R8A8_UNORM 2 2 shot).
Proof. split; vm_compute; reflexivity. Qed.

Example save_writes_verbatim :
  files (after_save env_blit w0 7 VK_FORMAT_B8G8R8A8_UNORM 2 2 shot) !! shot
  = Some (list_byte_of_string ("P6" +:+ Stream.LF +:+ "2" +:+ Stream.LF +:+ "2"
                               +:+ Stream.LF +:+ "255" +:+ Stream.LF)
          ++ [x04; x05; x06; x08; x09; x0a; x10; x11; x12; x14; x15; x16])
  ∧ save env_blit 1 7 VK_FORMAT_B8G8R8A8_UNORM 2 2 shot w0
    = Ok true (after_save env_blit w0 7 VK_FORMAT_B8G8R8A8_UNORM 2 2 shot).
Proof. split; vm_compute; reflexivity. Qed.

Example save_cannot_open :
  save env_closed 1 7 VK_FORMAT_B8G8R8A8_UNORM 2 2 shot w0
  = Ok false (mkWorld (images w0) (memory w0) (files w0)
                [recordCopy false 7 (fresh (dom (images w0))) 2 2]).
Proof. vm_compute. reflexivity. Qed.

Example save_source_not_presentable :
  save env0 1 9 VK_FORMAT_B8G8R8A8_UNORM 2 2 shot w0 = Undefined.
Proof. vm_compute. reflexivity. Qed.

Example save_short_mapping :
  save env0 1 7 VK_FORMAT_B8G8R8A8_UNORM 2 3 shot w0 = Undefined.
Proof. vm_compute. reflexivity. Qed.

End CaptureClaims.

(** * Further properties of [MemoryTracker] *)

Section TrackerMore.

Import Tracker TrackerSpec TrackerExtra Examples.
Local Open Scope Z_scope.

Lemma wrap64_small z : 0 ≤ z < 2 ^ 64 → wrap64 z = z.
Proof. intros Hz. unfold wrap64. by apply Z.mod_small. Qed.

Lemma wrap64_range z : 0 ≤ wrap64 z < 2 ^ 64.
Proof. unfold wrap64. by apply Z.mod_pos_bound. Qed.

Lemma sum_sizes_nonneg (l : Live) :
  Forall (λ e, 0 ≤ size e.2) l → 0 ≤ sum_sizes l.
Proof.
  induction 1 as [|e l He _ IH]; [done|]. rewrite sum_sizes_cons. lia.
Qed.

Lemma sum_with_tag_le tg (l : Live) :
  Forall (λ e, 0 ≤ size e.2) l →
  0 ≤ sum_sizes (with_tag tg l) ≤ sum_sizes l.
Proof.
  induction 1 as [|e l He _ IH]; [done|].
  rewrite with_tag_cons. destruct (decide (tag e.2 = tg)); rewrite !sum_sizes_cons; lia.
Qed.

Lemma Forall_keep {A} (P Q : A → Prop) `{∀ x, Decision (Q x)} (l : list A) :
  Forall P l → Forall P (filter Q l).
Proof.
  rewrite !Forall_forall. intros HP x Hx. apply HP.
  by apply list_elem_of_filter in Hx as [_ ?].
Qed.

Lemma subscript_insert_eq (m : gmap string Z) k v : subscript (<[k := v]> m) k = v.
Proof. unfold subscript. by rewrite lookup_insert_eq. Qed.

Lemma subscript_insert_ne (m : gmap string Z) k k' v :
  k ≠ k' → subscript (<[k := v]> m) k' = subscript m k'.
Proof. intros Hne. unfold subscript. by rewrite lookup_insert_ne. Qed.

Lemma exact_init : exact instance0 [].
Proof. split; [apply agrees_init|constructor|done|done]. Qed.

Lemma exact_step t l o :
  exact t l →
  match o with
  | CallRecordAllocation memory sz _ _ => is_live memory l = false ∧ 0 ≤ sz
  | _ => True
  end →
  sum_sizes (live_step l o) < 2 ^ 64 →
  exact (step t o) (live_step l o).
Proof.
  intros [Ha Hnn Hb Hp] Ho Hb'.
  assert (Ha' : agrees (step t o) (live_step l o)).
  { apply agrees_step; [done|]. destruct o; [by destruct Ho|done..]. }
  destruct o as [memory sz idx tg|memory|]; cbn [step live_step] in *.
  - destruct Ho as [_ Hsz]. split; [done| |done|].
    + by constructor.
    + unfold recordAllocation. cbn [totalAllocated peakAllocated].
      destruct (Z.ltb_spec (peakAllocated t) (wrap64 (totalAllocated t + sz))); lia.
  - split; [done| |done|].
    + by apply Forall_keep.
    + rewrite (agrees_total _ _ Ha').
      assert (Hnn' : Forall (λ e, 0 ≤ size e.2) (filter (λ e, e.1 ≠ memory) l))
        by by apply Forall_keep.
      rewrite wrap64_small by (pose proof (sum_sizes_nonneg _ Hnn'); lia).
      unfold recordFree. destruct (allocations t !! memory) as [it|] eqn:Hit.
      * cbn [peakAllocated]. rewrite (agrees_map _ _ Ha) in Hit.
        rewrite (sum_sizes_drop memory it) by (done || apply Ha).
        assert (0 ≤ size it).
        { apply elem_of_list_to_map_2 in Hit.
          by apply (proj1 (Forall_forall _ _) Hnn (memory, it)). }
        rewrite (agrees_total _ _ Ha), wrap64_small in Hp
          by (pose proof (sum_sizes_nonneg _ Hnn); lia).
        lia.
      * rewrite (agrees_map _ _ Ha) in Hit. apply not_elem_of_list_to_map in Hit.
        rewrite drop_absent by done.
        rewrite (agrees_total _ _ Ha), wrap64_small in Hp
          by (pose proof (sum_sizes_nonneg _ Hnn); lia).
        done.
  - apply exact_init.
Qed.

Lemma exact_run ops : ∀ t l,
  exact t l → fresh_allocs_from l ops = true → within_u64_from l ops = true →
  exact (fold_left step ops t) (fold_left live_step ops l).
Proof.
  induction ops as [|o ops IH]; cbn [fold_left fresh_allocs_from within_u64_from];
    intros t l He Hf Hw; [done|].
  apply andb_prop in Hf as [Ho Hf].
  apply andb_prop in Hw as [Hw1 Hw]. apply andb_prop in Hw1 as [Hsz Hsum].
  apply IH; [|done..]. apply exact_step; [done| |lia].
  destruct o; [|done..]. split; [by apply negb_true_iff in Ho|lia].
Qed.

Lemma within_u64_take k ops : ∀ l,
  within_u64_from l ops = true → within_u64_from l (take k ops) = true.
Proof.
  revert ops. induction k as [|k IH]; intros [|o ops] l; cbn [take within_u64_from];
    try done.
  intros [Ho Hw]%andb_prop. rewrite Ho. cbn [andb]. by apply IH.
Qed.

(** X1.  Along a trace that never records a live handle, with
    non-negative sizes whose live sum stays below [2^64], nothing wraps:
    after each call the running total is the plain sum of the live sizes,
    every non-empty tag reads the plain sum of its live sizes, and the
    peak is at least the running total. *)
Theorem tracker_exact_accounting (ops : list Op) (k : nat) :
  fresh_allocs ops = true →
  within_u64 ops = true →
  getTotalAllocated (run (take k ops)) = sum_sizes (live (take k ops)) ∧
  (∀ tg, tg ≠ EmptyString →
     getAllocationByTag tg (run (take k ops))
     = sum_sizes (with_tag tg (live (take k ops)))) ∧
  getTotalAllocated (run (take k ops)) ≤ getPeakAllocated (run (take k ops)).
Proof.
  intros Hf Hw.
  assert (He : exact (run (take k ops)) (live (take k ops))).
  { apply exact_run; [apply exact_init|by apply fresh_allocs_take|by apply within_u64_take]. }
  destruct He as [Ha Hnn Hb Hp].
  destruct (agrees_invariant _ _ Ha) as (Ht & _ & Htag & _).
  pose proof (sum_sizes_nonneg _ Hnn) as H0.
  split; [rewrite Ht; apply wrap64_small; lia|]. split.
  - intros tg Htg. rewrite Htag by done. apply wrap64_small.
    pose proof (sum_with_tag_le tg _ Hnn). lia.
  - done.
Qed.

Lemma tracker_exact_accounting_witness :
  getTotalAllocated (run (take 3 trace0)) = sum_sizes (live (take 3 trace0)) ∧
  (∀ tg, tg ≠ EmptyString →
     getAllocationByTag tg (run (take 3 trace0))
     = sum_sizes (with_tag tg (live (take 3 trace0)))) ∧
  getTotalAllocated (run (take 3 trace0)) ≤ getPeakAllocated (run (take 3 trace0)).
Proof.
  apply (tracker_exact_accounting trace0 3); vm_compute; reflexivity.
Defined.

(** X2.  Recording a handle that is not live and freeing it again gives
    back the map of allocations, the running total and every per-tag
    counter, provided the total and the counter of the tag fit 64 bits
    (as every stored value does); the peak has become the larger of the
    old peak and the total in between. *)
Theorem record_then_free (t : MemoryTracker) (memory sz idx : Z) (tg : string) :
  allocations t !! memory = None →
  u64 (totalAllocated t) →
  u64 (getAllocationByTag tg t) →
  allocations (recordFree memory (recordAllocation memory sz idx tg t)) = allocations t ∧
  totalAllocated (recordFree memory (recordAllocation memory sz idx tg t))
    = totalAllocated t ∧
  (∀ tg', getAllocationByTag tg' (recordFree memory (recordAllocation memory sz idx tg t))
          = getAllocationByTag tg' t) ∧
  peakAllocated (recordFree memory (recordAllocation memory sz idx tg t))
    = Z.max (peakAllocated t) (wrap64 (totalAllocated t + sz)).
Proof.
  intros Hnone Ht Htg. unfold recordFree, recordAllocation.
  cbn [allocations totalAllocated peakAllocated taggedAllocations].
  rewrite lookup_insert_eq. cbn [size tag allocations totalAllocated peakAllocated
    taggedAllocations].
  split; [by rewrite delete_insert_eq, delete_id|].
  split.
  { rewrite wrap64_sub_l. replace (totalAllocated t + sz - sz) with (totalAllocated t) by lia.
    by apply wrap64_small. }
  split.
  - intros tg'. unfold getAllocationByTag in *. cbn [taggedAllocations].
    destruct (str_empty tg) eqn:Hemp; cbn [negb]; [done|].
    rewrite subscript_insert_eq, insert_insert_eq, wrap64_sub_l.
    replace (subscript (taggedAllocations t) tg + sz - sz)
      with (subscript (taggedAllocations t) tg) by lia.
    destruct (decide (tg = tg')) as [<-|Hne].
    + rewrite lookup_insert_eq. unfold subscript.
      destruct (taggedAllocations t !! tg) as [v|]; by apply wrap64_small.
    + by rewrite lookup_insert_ne.
  - destruct (Z.ltb_spec (peakAllocated t) (wrap64 (totalAllocated t + sz))); lia.
Qed.

Lemma record_then_free_witness :
  allocations (recordFree 3 (recordAllocation 3 7 0 "a" (run trace_tagged)))
    = allocations (run trace_tagged) ∧
  totalAllocated (recordFree 3 (recordAllocation 3 7 0 "a" (run trace_tagged)))
    = totalAllocated (run trace_tagged) ∧
  (∀ tg', getAllocationByTag tg' (recordFree 3 (recordAllocation 3 7 0 "a" (run trace_tagged)))
          = getAllocationByTag tg' (run trace_tagged)) ∧
  peakAllocated (recordFree 3 (recordAllocation 3 7 0 "a" (run trace_tagged)))
    = Z.max (peakAllocated (run trace_tagged))
        (wrap64 (totalAllocated (run trace_tagged) + 7)).
Proof.
  apply (record_then_free (run trace_tagged) 3 7 0 "a").
  - vm_compute. reflexivity.
  - vm_compute. split; [discriminate|reflexivity].
  - vm_compute. split; [discriminate|reflexivity].
Defined.

(** X3.  Recording a handle that is already live replaces its entry
    without taking the old size out of the running total: the number of
    allocations stays, the total grows by the new size, and after the
    handle is freed the total is back at its value before the second
    recording, so the size recorded first is counted for good. *)
Theorem record_live_handle (t : MemoryTracker) (memory sz idx : Z) (tg : string)
    (old : AllocationInfo) :
  allocations t !! memory = Some old →
  getAllocationCount (recordAllocation memory sz idx tg t) = getAllocationCount t ∧
  allocations (recordAllocation memory sz idx tg t) !! memory
    = Some (mkAllocationInfo sz idx tg) ∧
  totalAllocated (recordAllocation memory sz idx tg t) = wrap64 (totalAllocated t + sz) ∧
  allocations (recordFree memory (recordAllocation memory sz idx tg t)) !! memory = None ∧
  totalAllocated (recordFree memory (recordAllocation memory sz idx tg t))
    = wrap64 (totalAllocated t).
Proof.
  intros Hold. unfold getAllocationCount, recordFree, recordAllocation.
  cbn [allocations totalAllocated]. rewrite lookup_insert_eq.
  cbn [allocations totalAllocated size].
  split; [by rewrite map_size_insert_Some|].
  split; [done|]. split; [done|]. split; [apply lookup_delete_eq|].
  rewrite wrap64_sub_l. apply (f_equal wrap64). lia.
Qed.

Lemma record_live_handle_witness :
  getAllocationCount (recordAllocation 1 4 0 "c" (run trace_tagged))
    = getAllocationCount (run trace_tagged) ∧
  allocations (recordAllocation 1 4 0 "c" (run trace_tagged)) !! 1
    = Some (mkAllocationInfo 4 0 "c") ∧
  totalAllocated (recordAllocation 1 4 0 "c" (run trace_tagged))
    = wrap64 (totalAllocated (run trace_tagged) + 4) ∧
  allocations (recordFree 1 (recordAllocation 1 4 0 "c" (run trace_tagged))) !! 1 = None ∧
  totalAllocated (recordFree 1 (recordAllocation 1 4 0 "c" (run trace_tagged)))
    = wrap64 (totalAllocated (run trace_tagged)).
Proof.
  apply (record_live_handle (run trace_tagged) 1 4 0 "c" (mkAllocationInfo 10 0 "a")).
  vm_compute. reflexivity.
Defined.

(** X4.  Freeing a handle twice is the same as freeing it once. *)
Theorem recordFree_twice (t : MemoryTracker) (memory : Z) :
  recordFree memory (recordFree memory t) = recordFree memory t.
Proof.
  unfold recordFree at 1.
  assert (Hgone : allocations (recordFree memory t) !! memory = None).
  { unfold recordFree. destruct (allocations t !! memory) eqn:Hm; [|done].
    cbn [allocations]. apply lookup_delete_eq. }
  by rewrite Hgone.
Qed.

Lemma wrap64_sub_sub a b c : wrap64 (wrap64 (a - b) - c) = wrap64 (wrap64 (a - c) - b).
Proof. rewrite !wrap64_sub_l. apply (f_equal wrap64). lia. Qed.

(** The per-tag counters after one [recordFree] that found entry [it]. *)
Lemma tagged_free_commute (m : gmap string Z) (i1 i2 : AllocationInfo) :
  (if negb (str_empty (tag i1))
   then <[tag i1 := wrap64 (subscript
            (if negb (str_empty (tag i2))
             then <[tag i2 := wrap64 (subscript m (tag i2) - size i2)]> m else m)
            (tag i1) - size i1)]>
          (if negb (str_empty (tag i2))
           then <[tag i2 := wrap64 (subscript m (tag i2) - size i2)]> m else m)
   else (if negb (str_empty (tag i2))
         then <[tag i2 := wrap64 (subscript m (tag i2) - size i2)]> m else m))
  = (if negb (str_empty (tag i2))
     then <[tag i2 := wrap64 (subscript
              (if negb (str_empty (tag i1))
               then <[tag i1 := wrap64 (subscript m (tag i1) - size i1)]> m else m)
              (tag i2) - size i2)]>
            (if negb (str_empty (tag i1))
             then <[tag i1 := wrap64 (subscript m (tag i1) - size i1)]> m else m)
     else (if negb (str_empty (tag i1))
           then <[tag i1 := wrap64 (subscript m (tag i1) - size i1)]> m else m)).
Proof.
  destruct (str_empty (tag i1)), (str_empty (tag i2)); cbn [negb]; try done.
  destruct (decide (tag i1 = tag i2)) as [Heq|Hne].
  - rewrite Heq, !subscript_insert_eq, !insert_insert_eq. by rewrite wrap64_sub_sub.
  - rewrite !subscript_insert_ne by done. by apply insert_insert_ne.
Qed.

(** X5.  Frees of two different handles can be done in either order: the
    tracker ends in the same state. *)
Theorem recordFree_commute (t : MemoryTracker) (m1 m2 : Z) :
  m1 ≠ m2 →
  recordFree m1 (recordFree m2 t) = recordFree m2 (recordFree m1 t).
Proof.
  intros Hne. unfold recordFree.
  destruct (allocations t !! m1) as [i1|] eqn:H1;
    destruct (allocations t !! m2) as [i2|] eqn:H2;
    cbn [allocations totalAllocated peakAllocated taggedAllocations];
    rewrite ?lookup_delete_ne by done; rewrite ?H1, ?H2;
    cbn [allocations totalAllocated peakAllocated taggedAllocations]; try done.
  f_equal.
  - apply delete_delete.
  - apply wrap64_sub_sub.
  - apply tagged_free_commute.
Qed.

Lemma recordFree_commute_witness :
  recordFree 1 (recordFree 2 (run trace_tagged))
  = recordFree 2 (recordFree 1 (run trace_tagged)).
Proof. apply (recordFree_commute (run trace_tagged) 1 2). discriminate. Defined.

(** X6.  A [reset] forgets everything before it: a trace with a [reset]
    in it leaves the tracker, and the live allocations, as the calls after
    the last [reset] alone do. *)
Theorem reset_forgets (ops ops' : list Op) :
  run (ops ++ CallReset :: ops') = run ops' ∧
  live (ops ++ CallReset :: ops') = live ops'.
Proof.
  unfold run, live. rewrite !fold_left_app. cbn [fold_left step live_step reset].
  done.
Qed.

(** X7.  The calls touch one handle and one tag: [recordAllocation] and
    [recordFree] leave the entry of every other handle and the counter of
    every other tag as they were, and neither changes the counter of the
    empty tag. *)
Theorem tracker_frame (t : MemoryTracker) (memory sz idx : Z) (tg : string) :
  (∀ m', m' ≠ memory →
     allocations (recordAllocation memory sz idx tg t) !! m' = allocations t !! m' ∧
     allocations (recordFree memory t) !! m' = allocations t !! m') ∧
  (∀ tg', tg' ≠ tg →
     getAllocationByTag tg' (recordAllocation memory sz idx tg t)
     = getAllocationByTag tg' t) ∧
  (∀ tg', (∀ it, allocations t !! memory = Some it → tag it ≠ tg') →
     getAllocationByTag tg' (recordFree memory t) = getAllocationByTag tg' t) ∧
  getAllocationByTag EmptyString (recordAllocation memory sz idx tg t)
    = getAllocationByTag EmptyString t ∧
  getAllocationByTag EmptyString (recordFree memory t)
    = getAllocationByTag EmptyString t.
Proof.
  assert (Halloc : ∀ tg', tg' ≠ tg ∨ tg' = EmptyString →
    getAllocationByTag tg' (recordAllocation memory sz idx tg t)
    = getAllocationByTag tg' t).
  { intros tg' Htg'. unfold getAllocationByTag, recordAllocation.
    cbn [taggedAllocations]. destruct (str_empty tg) eqn:Hemp; cbn [negb]; [done|].
    rewrite lookup_insert_ne; [done|]. destruct Htg' as [?| ->]; [done|].
    intros ->. done. }
  assert (Hfree : ∀ tg',
    (∀ it, allocations t !! memory = Some it → tag it ≠ tg') ∨ tg' = EmptyString →
    getAllocationByTag tg' (recordFree memory t) = getAllocationByTag tg' t).
  { intros tg' Htg'. unfold getAllocationByTag, recordFree.
    destruct (allocations t !! memory) as [it|] eqn:Hit; [|done].
    cbn [taggedAllocations]. destruct (str_empty (tag it)) eqn:Hemp; cbn [negb]; [done|].
    rewrite lookup_insert_ne; [done|]. destruct Htg' as [Hne| ->]; [by apply Hne|].
    intros Heq. by rewrite Heq in Hemp. }
  split; [|split; [|split; [|split]]].
  - intros m' Hm'. split.
    + unfold recordAllocation. cbn [allocations]. by rewrite lookup_insert_ne.
    + unfold recordFree. destruct (allocations t !! memory); [|done].
      cbn [allocations]. by rewrite lookup_delete_ne.
  - intros tg' Htg'. apply Halloc. by left.
  - intros tg' Htg'. apply Hfree. by left.
  - apply Halloc. by right.
  - apply Hfree. by right.
Qed.

Lemma peak_step_mono (t : MemoryTracker) (o : Op) :
  o ≠ CallReset → peakAllocated t ≤ peakAllocated (step t o).
Proof.
  intros Ho. destruct o as [memory sz idx tg|memory|]; [| |done]; cbn [step].
  - unfold recordAllocation. cbn [peakAllocated].
    destruct (Z.ltb_spec (peakAllocated t) (wrap64 (totalAllocated t + sz))); lia.
  - unfold recordFree. by destruct (allocations t !! memory).
Qed.

(** X8.  Between two [reset] calls the peak never goes down: whatever
    allocations and frees follow, [getPeakAllocated] is at least what it
    was, and a [recordFree] leaves it exactly as it was. *)
Theorem peak_monotone (t : MemoryTracker) (ops : list Op) :
  no_reset ops = true →
  getPeakAllocated t ≤ getPeakAllocated (fold_left step ops t) ∧
  ∀ memory, getPeakAllocated (recordFree memory t) = getPeakAllocated t.
Proof.
  intros Hnr. split.
  - revert t. induction ops as [|o ops IH]; intros t; cbn [fold_left]; [done|].
    cbn [no_reset forallb] in Hnr. apply andb_prop in Hnr as [Ho Hnr].
    unfold getPeakAllocated in *. etrans; [|by apply IH].
    apply peak_step_mono. by destruct o.
  - intros memory. unfold getPeakAllocated, recordFree.
    by destruct (allocations t !! memory).
Qed.

Lemma peak_monotone_witness :
  getPeakAllocated (run trace_tagged)
  ≤ getPeakAllocated (fold_left step [CallRecordFree 1; CallRecordAllocation 4 1 0 EmptyString]
                        (run trace_tagged)) ∧
  ∀ memory, getPeakAllocated (recordFree memory (run trace_tagged))
            = getPeakAllocated (run trace_tagged).
Proof.
  apply (peak_monotone (run trace_tagged)
           [CallRecordFree 1; CallRecordAllocation 4 1 0 EmptyString]).
  reflexivity.
Defined.

End TrackerMore.

(** * Further properties of [Screenshot::save] *)

Section CaptureMore.

Import Vk Device Tools Screenshot Ppm PpmRead Examples MoreExamples.

(** X10.  A capture that returns has touched nothing but its own file and
    the source image: every other file, every other image and every
    allocation are as before, and the source image, presentable before,
    is presentable with access memory read. *)
Theorem save_footprint env queue src fmt width height fn w b w' :
  save env queue src fmt width height fn w = Ok b w' →
  (∀ fn', fn' ≠ fn → files w' !! fn' = files w !! fn') ∧
  (∀ i, i ≠ src → images w' !! i = images w !! i) ∧
  memory w' = memory w ∧
  (∃ st, images w !! src = Some st ∧ layout st = VK_IMAGE_LAYOUT_PRESENT_SRC_KHR) ∧
  images w' !! src
    = Some (mkImageState VK_IMAGE_LAYOUT_PRESENT_SRC_KHR VK_ACCESS_MEMORY_READ_BIT).
Proof.
  intros ([_ _ _ _ Hsrc _] & _ & _ & ->)%save_Ok_iff.
  unfold after_save. cbn [files images memory].
  split; [|split; [|split; [done|split; [done|]]]].
  - intros fn' Hne. destruct (fileOpens env fn); [|done]. by rewrite lookup_insert_ne.
  - intros i Hne. by rewrite lookup_insert_ne.
  - apply lookup_insert_eq.
Qed.

Lemma save_footprint_witness :
  (∀ fn', fn' ≠ shot →
     files (after_save env0 w0 7 VK_FORMAT_B8G8R8A8_UNORM 2 2 shot) !! fn' = files w0 !! fn') ∧
  (∀ i, i ≠ 7%N →
     images (after_save env0 w0 7 VK_FORMAT_B8G8R8A8_UNORM 2 2 shot) !! i = images w0 !! i) ∧
  memory (after_save env0 w0 7 VK_FORMAT_B8G8R8A8_UNORM 2 2 shot) = memory w0 ∧
  (∃ st, images w0 !! 7%N = Some st ∧ layout st = VK_IMAGE_LAYOUT_PRESENT_SRC_KHR) ∧
  images (after_save env0 w0 7 VK_FORMAT_B8G8R8A8_UNORM 2 2 shot) !! 7%N
    = Some (mkImageState VK_IMAGE_LAYOUT_PRESENT_SRC_KHR VK_ACCESS_MEMORY_READ_BIT).
Proof.
  apply (save_footprint env0 1 7 VK_FORMAT_B8G8R8A8_UNORM 2 2 shot w0 true).
  vm_compute. reflexivity.
Defined.

Lemma rows_bytes_no_columns swz region pitch n : ∀ a,
  rows_bytes swz region a pitch 0 n = [].
Proof. induction n as [|n IH]; intros a; cbn [rows_bytes row_bytes app]; by auto. Qed.

(** X11.  With a width or a height of zero no pixel is read: when the
    device operations succeed and the file opens, the capture returns
    [true] and the file is the header alone, whatever the mapped range
    holds. *)
Theorem save_empty_image env queue src fmt width height fn w :
  device_ok env w src width height →
  fileOpens env fn = true →
  width = 0%N ∨ height = 0%N →
  ∃ w', save env queue src fmt width height fn w = Ok true w' ∧
        files w' !! fn = Some (header width height).
Proof.
  intros Hok Hopen Hzero.
  exists (after_save env w src fmt width height fn). split.
  - apply save_Ok_iff. split; [done|]. split; [|by rewrite Hopen].
    intros _ y x Hy Hx. destruct Hzero as [-> | ->]; cbn in Hy, Hx; lia.
  - unfold after_save. cbn [files]. rewrite Hopen, lookup_insert_eq. f_equal.
    assert (Hp : payload env fmt width height = []).
    { unfold payload. destruct Hzero as [-> | ->]; [apply rows_bytes_no_columns|done]. }
    rewrite Hp. apply app_nil_r.
Qed.

Lemma save_empty_image_witness :
  ∃ w', save env_unmapped 1 7 VK_FORMAT_B8G8R8A8_UNORM 0 5 shot w0 = Ok true w' ∧
        files w' !! shot = Some (header 0 5).
Proof.
  apply (save_empty_image env_unmapped 1 7 VK_FORMAT_B8G8R8A8_UNORM 0 5 shot w0).
  - split; try (vm_compute; reflexivity).
    eexists. split; vm_compute; reflexivity.
  - reflexivity.
  - left. reflexivity.
Defined.

Lemma pixel_rel swz1 swz2 r1 r2 a1 a2 :
  (a1 + 3 ≤ length r1)%nat → (a2 + 3 ≤ length r2)%nat →
  (∀ c, (c < 3)%nat →
     r1 !! (a1 + channel swz1 c)%nat = r2 !! (a2 + channel swz2 c)%nat) →
  pixel swz1 r1 a1 = pixel swz2 r2 a2.
Proof.
  intros H1 H2 Hag. apply list_eq. intros i.
  destruct (decide (i < 3)%nat) as [Hi|Hi].
  - rewrite !pixel_lookup by done. by apply Hag.
  - rewrite !lookup_ge_None_2; [done|rewrite pixel_length by done; lia..].
Qed.

Lemma row_bytes_rel swz1 swz2 r1 r2 n : ∀ a1 a2,
  (∀ x, (x < n)%nat → (a1 + 4 * x + 3 ≤ length r1)%nat) →
  (∀ x, (x < n)%nat → (a2 + 4 * x + 3 ≤ length r2)%nat) →
  (∀ x c, (x < n)%nat → (c < 3)%nat →
     r1 !! (a1 + 4 * x + channel swz1 c)%nat = r2 !! (a2 + 4 * x + channel swz2 c)%nat) →
  row_bytes swz1 r1 a1 n = row_bytes swz2 r2 a2 n.
Proof.
  induction n as [|n IH]; intros a1 a2 H1 H2 Hag; cbn [row_bytes]; [done|]. f_equal.
  - apply pixel_rel; [specialize (H1 O); lia|specialize (H2 O); lia|].
    intros c Hc. specialize (Hag O c).
    replace (a1 + channel swz1 c)%nat with (a1 + 4 * 0 + channel swz1 c)%nat by lia.
    replace (a2 + channel swz2 c)%nat with (a2 + 4 * 0 + channel swz2 c)%nat by lia.
    apply Hag; lia.
  - apply IH.
    + intros x Hx. specialize (H1 (S x)). lia.
    + intros x Hx. specialize (H2 (S x)). lia.
    + intros x c Hx Hc. specialize (Hag (S x) c).
      replace (a1 + 4 + 4 * x + channel swz1 c)%nat
        with (a1 + 4 * S x + channel swz1 c)%nat by lia.
      replace (a2 + 4 + 4 * x + channel swz2 c)%nat
        with (a2 + 4 * S x + channel swz2 c)%nat by lia.
      apply Hag; lia.
Qed.

Lemma rows_bytes_rel swz1 swz2 r1 r2 w n : ∀ a1 p1 a2 p2,
  (∀ y x, (y < n)%nat → (x < w)%nat → (a1 + p1 * y + 4 * x + 3 ≤ length r1)%nat) →
  (∀ y x, (y < n)%nat → (x < w)%nat → (a2 + p2 * y + 4 * x + 3 ≤ length r2)%nat) →
  (∀ y x c, (y < n)%nat → (x < w)%nat → (c < 3)%nat →
     r1 !! (a1 + p1 * y + 4 * x + channel swz1 c)%nat
     = r2 !! (a2 + p2 * y + 4 * x + channel swz2 c)%nat) →
  rows_bytes swz1 r1 a1 p1 w n = rows_bytes swz2 r2 a2 p2 w n.
Proof.
  induction n as [|n IH]; intros a1 p1 a2 p2 H1 H2 Hag; cbn [rows_bytes]; [done|].
  f_equal.
  - apply row_bytes_rel.
    + intros x Hx. specialize (H1 O x). lia.
    + intros x Hx. specialize (H2 O x). lia.
    + intros x c Hx Hc. specialize (Hag O x c).
      replace (a1 + 4 * x + channel swz1 c)%nat
        with (a1 + p1 * 0 + 4 * x + channel swz1 c)%nat by lia.
      replace (a2 + 4 * x + channel swz2 c)%nat
        with (a2 + p2 * 0 + 4 * x + channel swz2 c)%nat by lia.
      apply Hag; lia.
  - apply IH.
    + intros y x Hy Hx. specialize (H1 (S y) x). lia.
    + intros y x Hy Hx. specialize (H2 (S y) x). lia.
    + intros y x c Hy Hx Hc. specialize (Hag (S y) x c).
      replace (a1 + p1 + p1 * y + 4 * x + channel swz1 c)%nat
        with (a1 + p1 * S y + 4 * x + channel swz1 c)%nat by lia.
      replace (a2 + p2 + p2 * y + 4 * x + channel swz2 c)%nat
        with (a2 + p2 * S y + 4 * x + channel swz2 c)%nat by lia.
      apply Hag; lia.
Qed.

(** X12.  The fallback agrees with the accelerated path on a BGR source:
    when one capture blits and finds, for every pixel, the three colour
    bytes in the opposite order of what a second capture finds after a
    raw copy, and the source format is one of the three BGR formats, the
    two captures write the same file.  The two staging images may be laid
    out differently. *)
Theorem fallback_matches_blit env_b env_c queue src fmt width height fn wb wb' wc wc' :
  supportsBlit env_b fmt = true →
  supportsBlit env_c fmt = false →
  fmt = VK_FORMAT_B8G8R8A8_SRGB ∨ fmt = VK_FORMAT_B8G8R8A8_UNORM
    ∨ fmt = VK_FORMAT_B8G8R8A8_SNORM →
  swapped_pixels env_b env_c width height →
  save env_b queue src fmt width height fn wb = Ok true wb' →
  save env_c queue src fmt width height fn wc = Ok true wc' →
  is_Some (files wb' !! fn) ∧ files wb' !! fn = files wc' !! fn.
Proof.
  intros Hb Hc Hfmt Hsw (_ & Hcovb & _ & Hfb & _)%save_true_inv
    (_ & Hcovc & _ & Hfc & _)%save_true_inv.
  split; [by rewrite Hfb|]. rewrite Hfb, Hfc. do 2 f_equal.
  unfold payload. rewrite Hb, Hc.
  assert (Hs : colorSwizzle false fmt = true) by by apply colorSwizzle_iff.
  rewrite Hs. change (colorSwizzle true fmt) with false.
  apply rows_bytes_rel; [exact Hcovb|exact Hcovc|].
  intros y x c Hy Hx Hc3. apply (Hsw y x c Hy Hx Hc3).
Qed.

Lemma fallback_matches_blit_witness :
  is_Some (files (after_save env_swapped w0 7 VK_FORMAT_B8G8R8A8_SRGB 2 2 shot) !! shot) ∧
  files (after_save env_swapped w0 7 VK_FORMAT_B8G8R8A8_SRGB 2 2 shot) !! shot
  = files (after_save env0 w0 7 VK_FORMAT_B8G8R8A8_SRGB 2 2 shot) !! shot.
Proof.
  apply (fallback_matches_blit env_swapped env0 1 7 VK_FORMAT_B8G8R8A8_SRGB 2 2 shot w0 _ w0).
  - reflexivity.
  - reflexivity.
  - left. reflexivity.
  - intros y x c Hy Hx Hc.
    destruct y as [|[|y]]; [| |vm_compute in Hy; lia];
      (destruct x as [|[|x]]; [| |vm_compute in Hx; lia]);
      (destruct c as [|[|[|c]]]; [| | |lia]); reflexivity.
  - vm_compute. reflexivity.
  - vm_compute. reflexivity.
Defined.

Lemma digits_of_uint d :
  Forall (λ b, is_digit b = true) (list_byte_of_string (NilEmpty.string_of_uint d)).
Proof. induction d; cbn; constructor; (reflexivity || assumption). Qed.

Lemma dec_digits n : Forall (λ b, is_digit b = true) (dec n).
Proof.
  unfold dec, NilZero.string_of_uint.
  destruct (N.to_uint n) eqn:Hd; try (rewrite <- Hd; apply digits_of_uint).
  cbn. constructor; [reflexivity|constructor].
Qed.

Lemma digits_span ds b rest :
  Forall (λ b, is_digit b = true) ds → is_digit b = false →
  digits (ds ++ b :: rest) = (ds, b :: rest).
Proof.
  intros Hds Hb. induction Hds as [|d ds Hd _ IH]; cbn [app digits].
  - by rewrite Hb.
  - by rewrite Hd, IH.
Qed.

Lemma field_dec n rest : field (dec n ++ x0a :: rest) = Some (n, rest).
Proof.
  unfold field. rewrite digits_span by (apply dec_digits || reflexivity).
  cbn [Byte.eqb]. by rewrite parse_dec_dec.
Qed.

Lemma read_ppm_header width height pixels :
  read_ppm (header width height ++ pixels) = Some (width, height, 255%N, pixels).
Proof.
  unfold header.
  change (list_byte_of_string ("P6" +:+ Stream.LF)) with [x50; x36; x0a].
  change (list_byte_of_string Stream.LF) with [x0a].
  cbn [app read_ppm]. rewrite <- !app_assoc. cbn [app].
  rewrite field_dec. rewrite <- !app_assoc. cbn [app].
  rewrite field_dec. rewrite <- !app_assoc. cbn [app].
  by rewrite field_dec.
Qed.

(** X13.  The file of a capture that returns [true] reads back: a reader
    that takes the token [P6] and three decimal fields, each closed by a
    line feed, finds the requested width, the requested height, 255 and
    exactly [width * height * 3] bytes of pixels. *)
Theorem save_reads_back env queue src fmt width height fn w w' :
  save env queue src fmt width height fn w = Ok true w' →
  ∃ file pixels,
    files w' !! fn = Some file ∧
    read_ppm file = Some (width, height, 255%N, pixels) ∧
    N.of_nat (length pixels) = (width * height * 3)%N.
Proof.
  intros (_ & Hcov & _ & Hf & _)%save_true_inv.
  exists (header width height ++ payload env fmt width height),
    (payload env fmt width height).
  split; [done|]. split; [apply read_ppm_header|].
  rewrite payload_length by done. lia.
Qed.

Lemma save_reads_back_witness :
  ∃ file pixels,
    files (after_save env0 w0 7 VK_FORMAT_B8G8R8A8_UNORM 2 2 shot) !! shot = Some file ∧
    read_ppm file = Some (2%N, 2%N, 255%N, pixels) ∧
    N.of_nat (length pixels) = (2 * 2 * 3)%N.
Proof.
  apply (save_reads_back env0 1 7 VK_FORMAT_B8G8R8A8_UNORM 2 2 shot w0).
  vm_compute. reflexivity.
Defined.

(** X14.  The far corner of the blit rectangle is [width] and [height]
    cast to [int32_t]: for 32-bit dimensions it is the requested size
    exactly when the dimension is below [2^31], and from [2^31] on the
    corner coordinate is negative, the dimension less [2^32]. *)
Theorem blit_corner_cast src dst width height :
  (width < 2 ^ 32)%N → (height < 2 ^ 32)%N →
  ∃ cx cy : Z,
    recordCopy true src dst width height !! 2%nat
    = Some (CmdBlitImage src VK_IMAGE_LAYOUT_TRANSFER_SRC_OPTIMAL
              dst VK_IMAGE_LAYOUT_TRANSFER_DST_OPTIMAL
              [mkImageBlit (mkSubresourceLayers VK_IMAGE_ASPECT_COLOR_BIT 0 0 1)
                 (mkOffset3D 0 0 0) (mkOffset3D cx cy 1)
                 (mkSubresourceLayers VK_IMAGE_ASPECT_COLOR_BIT 0 0 1)
                 (mkOffset3D 0 0 0) (mkOffset3D cx cy 1)]
              VK_FILTER_NEAREST) ∧
    (cx = Z.of_N width ↔ (width < 2 ^ 31)%N) ∧
    (cy = Z.of_N height ↔ (height < 2 ^ 31)%N) ∧
    ((2 ^ 31 ≤ width)%N → cx = (Z.of_N width - 2 ^ 32)%Z ∧ (cx < 0)%Z) ∧
    ((2 ^ 31 ≤ height)%N → cy = (Z.of_N height - 2 ^ 32)%Z ∧ (cy < 0)%Z).
Proof.
  intros Hw Hh.
  assert (Hcast : ∀ n : N, (n < 2 ^ 32)%N →
    (to_int32 (Z.of_N n) = Z.of_N n ↔ (n < 2 ^ 31)%N) ∧
    ((2 ^ 31 ≤ n)%N → to_int32 (Z.of_N n) = (Z.of_N n - 2 ^ 32)%Z
                      ∧ (to_int32 (Z.of_N n) < 0)%Z)).
  { intros n Hn. unfold to_int32.
    destruct (decide (n < 2 ^ 31)%N) as [Hlt|Hge].
    - rewrite Z.mod_small by lia. split; [split; [done|lia]|lia].
    - assert (Hm : ((Z.of_N n + 2 ^ 31) mod 2 ^ 32 = Z.of_N n + 2 ^ 31 - 2 ^ 32)%Z).
      { symmetry. apply (Z.mod_unique _ _ 1); lia. }
      rewrite Hm. split; [split; lia|lia]. }
  exists (to_int32 (Z.of_N width)), (to_int32 (Z.of_N height)).
  split; [reflexivity|].
  destruct (Hcast width Hw) as [Hw1 Hw2], (Hcast height Hh) as [Hh1 Hh2]. done.
Qed.

Lemma blit_corner_cast_witness :
  ∃ cx cy : Z,
    recordCopy true 7 8 (2 ^ 31 + 5) 600 !! 2%nat
    = Some (CmdBlitImage 7 VK_IMAGE_LAYOUT_TRANSFER_SRC_OPTIMAL
              8 VK_IMAGE_LAYOUT_TRANSFER_DST_OPTIMAL
              [mkImageBlit (mkSubresourceLayers VK_IMAGE_ASPECT_COLOR_BIT 0 0 1)
                 (mkOffset3D 0 0 0) (mkOffset3D cx cy 1)
                 (mkSubresourceLayers VK_IMAGE_ASPECT_COLOR_BIT 0 0 1)
                 (mkOffset3D 0 0 0) (mkOffset3D cx cy 1)]
              VK_FILTER_NEAREST) ∧
    (cx = Z.of_N (2 ^ 31 + 5) ↔ (2 ^ 31 + 5 < 2 ^ 31)%N) ∧
    (cy = Z.of_N 600 ↔ (600 < 2 ^ 31)%N) ∧
    ((2 ^ 31 ≤ 2 ^ 31 + 5)%N → cx = (Z.of_N (2 ^ 31 + 5) - 2 ^ 32)%Z ∧ (cx < 0)%Z) ∧
    ((2 ^ 31 ≤ 600)%N → cy = (Z.of_N 600 - 2 ^ 32)%Z ∧ (cy < 0)%Z).
Proof.
  apply (blit_corner_cast 7 8 (2 ^ 31 + 5) 600); reflexivity.
Defined.

Lemma covers_bound region sl width height :
  (0 < width)%N → (0 < height)%N →
  covers region sl width height ↔
  (pixel_addr sl (N.to_nat height - 1) (N.to_nat width - 1) + 3 ≤ length region)%nat.
Proof.
  intros Hw Hh. unfold covers, pixel_addr. split.
  - intros Hcov. apply Hcov; lia.
  - intros Hlast y x Hy Hx.
    assert (N.to_nat (rowPitch sl) * y
            ≤ N.to_nat (rowPitch sl) * (N.to_nat height - 1))%nat by nia.
    lia.
Qed.

(** X15.  How much of the mapping is read.  With every device operation
    succeeding, the file opening and both dimensions positive, the capture
    returns exactly when the mapped range reaches the third byte of the
    last pixel of the last row, at
    [offset + rowPitch * (height - 1) + 4 * (width - 1) + 3]; the fourth
    byte of that pixel and the padding behind it need not be there. *)
Theorem mapped_bytes_needed env queue src fmt width height fn w :
  device_ok env w src width height →
  fileOpens env fn = true →
  (0 < width)%N → (0 < height)%N →
  (∃ b w', save env queue src fmt width height fn w = Ok b w') ↔
  (N.to_nat (offset (imageSubresourceLayout env))
   + N.to_nat (rowPitch (imageSubresourceLayout env)) * (N.to_nat height - 1)
   + 4 * (N.to_nat width - 1) + 3 ≤ length (stagingBytes env))%nat.
Proof.
  intros Hok Hopen Hw Hh.
  rewrite <- (covers_bound (stagingBytes env) (imageSubresourceLayout env) width height)
    by done.
  split.
  - intros (b & w' & (_ & Hcov & _)%save_Ok_iff). by apply Hcov.
  - intros Hcov. exists true, (after_save env w src fmt width height fn).
    apply save_Ok_iff. by rewrite Hopen.
Qed.

Lemma mapped_bytes_needed_witness :
  (∃ b w', save env0 1 7 VK_FORMAT_B8G8R8A8_UNORM 2 2 shot w0 = Ok b w') ↔
  (N.to_nat (offset (imageSubresourceLayout env0))
   + N.to_nat (rowPitch (imageSubresourceLayout env0)) * (N.to_nat 2 - 1)
   + 4 * (N.to_nat 2 - 1) + 3 ≤ length (stagingBytes env0))%nat.
Proof.
  apply (mapped_bytes_needed env0 1 7 VK_FORMAT_B8G8R8A8_UNORM 2 2 shot w0).
  - split; try (vm_compute; reflexivity).
    eexists. split; vm_compute; reflexivity.
  - reflexivity.
  - reflexivity.
  - reflexivity.
Defined.

(** X16.  The layouts named in the recorded sequence chain up.  Run on a
    device where the staging image has just been created, every barrier
    finds its image in the old layout it names and the transfer finds
    both images in the layouts it names exactly when the source image is
    live and presentable; the staging image then ends in the general
    layout with access memory read, and no other image changes. *)
Theorem recorded_layouts_chain blit src dst width height (imgs : gmap N ImageState) :
  imgs !! dst = None →
  (is_Some (exec_commands (recordCopy blit src dst width height)
              (<[dst := mkImageState VK_IMAGE_LAYOUT_UNDEFINED 0]> imgs))
   ↔ ∃ st, imgs !! src = Some st ∧ layout st = VK_IMAGE_LAYOUT_PRESENT_SRC_KHR) ∧
  ∀ imgs',
    exec_commands (recordCopy blit src dst width height)
      (<[dst := mkImageState VK_IMAGE_LAYOUT_UNDEFINED 0]> imgs) = Some imgs' →
    imgs' !! dst = Some (mkImageState VK_IMAGE_LAYOUT_GENERAL VK_ACCESS_MEMORY_READ_BIT) ∧
    imgs' !! src
      = Some (mkImageState VK_IMAGE_LAYOUT_PRESENT_SRC_KHR VK_ACCESS_MEMORY_READ_BIT) ∧
    ∀ i, i ≠ src → i ≠ dst → imgs' !! i = imgs !! i.
Proof.
  intros Hdst. rewrite exec_recordCopy by done.
  destruct (imgs !! src) as [st|] eqn:Hsrc.
  - assert (Hne : dst ≠ src) by congruence.
    destruct (decide (layout st = VK_IMAGE_LAYOUT_PRESENT_SRC_KHR)) as [Hl|Hl].
    + split; [split; [by eauto|by eauto]|].
      intros imgs' [= <-]. split; [apply lookup_insert_eq|]. split.
      * by rewrite lookup_insert_ne, lookup_insert_eq.
      * intros i Hi1 Hi2. by rewrite !lookup_insert_ne.
    + split; [|done]. split; [by intros [? ?]|]. intros (st' & [= <-] & ?). done.
  - split; [|done]. split; [by intros [? ?]|]. by intros (st' & ? & ?).
Qed.

Lemma recorded_layouts_chain_witness :
  is_Some (exec_commands (recordCopy false 7 8 2 2)
             (<[8%N := mkImageState VK_IMAGE_LAYOUT_UNDEFINED 0]> (images w0)))
  ↔ ∃ st, images w0 !! 7%N = Some st ∧ layout st = VK_IMAGE_LAYOUT_PRESENT_SRC_KHR.
Proof.
  apply (recorded_layouts_chain false 7 8 2 2 (images w0)). vm_compute. reflexivity.
Defined.

End CaptureMore.
